(** * Constant-area rectangles inside an adjustable oval

    A shallow embedding of the drag engine of
    [src/components/Rectangle_Resizing.tsx] (component
    [OvalConstantAreaRects]): the geometry helpers, the three pieces of
    React state ([rects], [oval], [dragRef]) and the handlers that update
    them, followed by the properties of the engine.

    Numbers.  The source computes with JavaScript numbers.  They are
    idealised here as real numbers: no rounding, no NaN and no infinities.
    Every division performed on a state that satisfies the invariants below
    has a non-zero divisor, and every square root a positive argument.

    What the idealisation does not carry over to double precision is the
    outcome of a comparison at an exact boundary and the exact reproduction
    of a value by [sqrt] or a division.  The general properties below are
    stated as bounds, as relations between the values a handler writes, or
    for either outcome of the containment test. *)

From Stdlib Require Import Reals Lra Psatz List String Bool Arith.
From Stdlib Require Import DecimalString.
Import ListNotations.

Open Scope R_scope.

(** ** Helper types *)

Module Rect.
Record t : Type := mk {
  id : string;
  cx : R;     (* center x *)
  cy : R;     (* center y *)
  w : R;      (* width *)
  h : R;      (* height *)
  area : R;   (* constant area target *)
  color : string
}.
End Rect.

Module Oval.
Record t : Type := mk { cx : R; cy : R; rx : R; ry : R }.
End Oval.

(** The two fields of a [React.MouseEvent] that the handlers read. *)
Record MouseEvent : Type := mkMouseEvent { clientX : R; clientY : R }.

(** ** Geometry utilities *)

(** [Math.max(min, Math.min(max, v))] *)
Definition clamp (v min max : R) : R := Rmax min (Rmin max v).

(** The sum is compared with 1 exactly.  In double precision the sum
    computed for a point of the exact boundary may come out just above 1,
    so that the source returns [false] where this definition returns
    [true]. *)
Definition insideEllipse (x y cx cy rx ry : R) : bool :=
  let dx := (x - cx) / rx in
  let dy := (y - cy) / ry in
  if Rle_dec (dx * dx + dy * dy) 1 then true else false.

(** ** Component state *)

(** Canvas size. *)
Definition W : R := 960.
Definition H : R := 560.

(** The value held by [dragRef.current] while a drag is active.  The [type]
    tag of the source object selects the constructor; [orig] has the shape
    the handler that created the session gave it, which is also the shape
    the casts in [onMouseMove] assume.  For the two rectangle resize
    sessions, [orig] is the spread of [rects.find(...)] together with [dir]:
    the snapshot is [None] when no rectangle was found, in which case the
    source object holds [dir] alone. *)
Inductive Drag : Type :=
| moveRect (id : string) (startX startY : R) (orig : option Rect.t)
| resizeRectW (id : string) (startX startY : R) (orig : option Rect.t) (dir : R)
| resizeRectH (id : string) (startX startY : R) (orig : option Rect.t) (dir : R)
| resizeOvalRX (startX startY : R) (orig : Oval.t) (dir : R)
| resizeOvalRY (startX startY : R) (orig : Oval.t) (dir : R).

Definition startX (d : Drag) : R :=
  match d with
  | moveRect _ x _ _ | resizeRectW _ x _ _ _ | resizeRectH _ x _ _ _
  | resizeOvalRX x _ _ _ | resizeOvalRY x _ _ _ => x
  end.

Definition startY (d : Drag) : R :=
  match d with
  | moveRect _ _ y _ | resizeRectW _ _ y _ _ | resizeRectH _ _ y _ _
  | resizeOvalRX _ y _ _ | resizeOvalRY _ y _ _ => y
  end.

(** The [id] field of the session object; absent for the oval sessions. *)
Definition drag_id (d : Drag) : option string :=
  match d with
  | moveRect i _ _ _ | resizeRectW i _ _ _ _ | resizeRectH i _ _ _ _ => Some i
  | resizeOvalRX _ _ _ _ | resizeOvalRY _ _ _ _ => None
  end.

Record State : Type := mkState {
  rects : list Rect.t;
  oval : Oval.t;
  dragRef : option Drag
}.

Definition setRects (f : list Rect.t -> list Rect.t) (st : State) : State :=
  mkState (f (rects st)) (oval st) (dragRef st).

Definition setOval (f : Oval.t -> Oval.t) (st : State) : State :=
  mkState (rects st) (f (oval st)) (dragRef st).

Definition setDrag (d : option Drag) (st : State) : State :=
  mkState (rects st) (oval st) d.

(** Object spreads [{ ...r, cx, cy }], [{ ...r, w, h }], [{ ...o, rx }] and
    [{ ...o, ry }]. *)
Definition with_center (r : Rect.t) (cx cy : R) : Rect.t :=
  Rect.mk (Rect.id r) cx cy (Rect.w r) (Rect.h r) (Rect.area r) (Rect.color r).

Definition with_size (r : Rect.t) (w h : R) : Rect.t :=
  Rect.mk (Rect.id r) (Rect.cx r) (Rect.cy r) w h (Rect.area r) (Rect.color r).

Definition with_rx (o : Oval.t) (rx : R) : Oval.t :=
  Oval.mk (Oval.cx o) (Oval.cy o) rx (Oval.ry o).

Definition with_ry (o : Oval.t) (ry : R) : Oval.t :=
  Oval.mk (Oval.cx o) (Oval.cy o) (Oval.rx o) ry.

(** [rects.find(r => r.id === id)] *)
Definition find_rect (i : string) (l : list Rect.t) : option Rect.t :=
  find (fun r => String.eqb (Rect.id r) i) l.

(** JavaScript truthiness of a string: every string but the empty one. *)
Definition truthy (s : string) : bool :=
  match s with
  | EmptyString => false
  | String _ _ => true
  end.

Definition is_some {A : Type} (o : option A) : bool :=
  match o with
  | Some _ => true
  | None => false
  end.

(** ** Initial state *)

Definition initialOval : Oval.t := Oval.mk (W / 2) (H / 2) 320 200.

Definition colors : list string :=
  ["#2563eb"; "#16a34a"; "#f59e0b"; "#ef4444"]%string.

Definition positions (o : Oval.t) : list (R * R) :=
  [ (Oval.cx o - Oval.rx o / 2.2, Oval.cy o - Oval.ry o / 3);
    (Oval.cx o + Oval.rx o / 2.2, Oval.cy o - Oval.ry o / 3);
    (Oval.cx o - Oval.rx o / 2.2, Oval.cy o + Oval.ry o / 3);
    (Oval.cx o + Oval.rx o / 2.2, Oval.cy o + Oval.ry o / 3) ].

(** [Array.prototype.map] with the index passed to the callback. *)
Fixpoint mapi_from {A B : Type} (f : A -> nat -> B) (i : nat) (l : list A)
  : list B :=
  match l with
  | [] => []
  | a :: l' => f a i :: mapi_from f (S i) l'
  end.

Definition mapi {A B : Type} (f : A -> nat -> B) (l : list A) : list B :=
  mapi_from f 0 l.

Definition string_of_nat (n : nat) : string :=
  NilEmpty.string_of_uint (Nat.to_uint n).

Definition initialRects : list Rect.t :=
  mapi (fun p i =>
          let w := 120 in
          let h := 60 in
          Rect.mk (String.append "R" (string_of_nat (i + 1)%nat))
                  (fst p) (snd p) w h (w * h)
                  (List.nth (i mod List.length colors)%nat colors EmptyString))
       (positions initialOval).

Definition initialState : State := mkState initialRects initialOval None.

(** ** Pointer-down handlers *)

Definition onMouseDownRectMove (e : MouseEvent) (id : string) (st : State)
  : State :=
  setDrag (Some (moveRect id (clientX e) (clientY e) (find_rect id (rects st))))
          st.

Definition onMouseDownRectW (e : MouseEvent) (id : string) (direction : R)
  (st : State) : State :=
  setDrag (Some (resizeRectW id (clientX e) (clientY e)
                             (find_rect id (rects st)) direction))
          st.

Definition onMouseDownRectH (e : MouseEvent) (id : string) (direction : R)
  (st : State) : State :=
  setDrag (Some (resizeRectH id (clientX e) (clientY e)
                             (find_rect id (rects st)) direction))
          st.

Definition onMouseDownOvalRX (e : MouseEvent) (direction : R) (st : State)
  : State :=
  setDrag (Some (resizeOvalRX (clientX e) (clientY e) (oval st) direction)) st.

Definition onMouseDownOvalRY (e : MouseEvent) (direction : R) (st : State)
  : State :=
  setDrag (Some (resizeOvalRY (clientX e) (clientY e) (oval st) direction)) st.

(** ** Pointer-move handler *)

(** The callback of the [moveRect] branch: it reads the rectangle [r] handed
    over by [prev.map], that is the current one. *)
Definition move_one (id : string) (dx dy : R) (r : Rect.t) : Rect.t :=
  if negb (String.eqb (Rect.id r) id) then r
  else
    let nx := Rect.cx r + dx in
    let ny := Rect.cy r + dy in
    let cx := clamp nx 0 W in
    let cy := clamp ny 0 H in
    with_center r cx cy.

(** The callback shared by the two resize branches. *)
Definition resize_one (id : string) (w h : R) (r : Rect.t) : Rect.t :=
  if String.eqb (Rect.id r) id then with_size r w h else r.

(** In a rectangle resize session whose snapshot is absent, the source
    destructures [undefined] for [w0], [h0] and [area], so [w] and [h] are
    NaN, and writes them to the rectangles whose id is the session's.  No
    real number stands for NaN; the branch leaves the state as it is, which
    is what the source does whenever no rectangle carries that id.  That is
    the case in every state the handlers can reach
    ([resize_without_snapshot_has_no_target]). *)
Definition onMouseMove (e : MouseEvent) (st : State) : State :=
  match dragRef st with
  | None => st
  | Some d =>
    let dx := clientX e - startX d in
    let dy := clientY e - startY d in
    match d with
    | moveRect id _ _ orig =>
      if truthy id && is_some orig
      then setRects (map (move_one id dx dy)) st
      else st
    | resizeRectW id _ _ (Some orig) dir =>
      if truthy id
      then
        let w0 := Rect.w orig in
        let area := Rect.area orig in
        let w := Rmax 20 (w0 + dir * dx) in
        let h := clamp (area / w) 10 600 in
        setRects (map (resize_one id w h)) st
      else st
    | resizeRectH id _ _ (Some orig) dir =>
      if truthy id
      then
        let h0 := Rect.h orig in
        let area := Rect.area orig in
        let h := Rmax 10 (h0 + dir * dy) in
        let w := clamp (area / h) 20 900 in
        setRects (map (resize_one id w h)) st
      else st
    | resizeRectW _ _ _ None _ | resizeRectH _ _ _ None _ => st
    | resizeOvalRX _ _ orig dir =>
      let rx0 := Oval.rx orig in
      let rx := clamp (rx0 + dir * dx) 60 (W / 2 - 40) in
      setOval (fun o => with_rx o rx) st
    | resizeOvalRY _ _ orig dir =>
      let ry0 := Oval.ry orig in
      let ry := clamp (ry0 + dir * dy) 60 (H / 2 - 40) in
      setOval (fun o => with_ry o ry) st
    end
  end.

(** ** Pointer-up and pointer-leave handler *)

Definition recenter (o : Oval.t) (r : Rect.t) : Rect.t :=
  let inEll :=
    insideEllipse (Rect.cx r) (Rect.cy r)
                  (Oval.cx o) (Oval.cy o) (Oval.rx o) (Oval.ry o) in
  if inEll then r
  else
    let nx := clamp (Rect.cx r) (Oval.cx o - Oval.rx o + Rect.w r / 2)
                    (Oval.cx o + Oval.rx o - Rect.w r / 2) in
    let ny := clamp (Rect.cy r) (Oval.cy o - Oval.ry o + Rect.h r / 2)
                    (Oval.cy o + Oval.ry o - Rect.h r / 2) in
    with_center r nx ny.

Definition onMouseUp (st : State) : State :=
  setRects (map (recenter (oval st))) (setDrag None st).

(** The callback of [onMouseUp] with the outcome [inEll] of the containment
    test handed in, and the handler with the test left open.  [onMouseUp]
    is the handler at the exact test [insideEllipse]; the source is the
    handler at that test evaluated in double precision. *)
Definition recenter_by (inEll : bool) (o : Oval.t) (r : Rect.t) : Rect.t :=
  if inEll then r
  else
    let nx := clamp (Rect.cx r) (Oval.cx o - Oval.rx o + Rect.w r / 2)
                    (Oval.cx o + Oval.rx o - Rect.w r / 2) in
    let ny := clamp (Rect.cy r) (Oval.cy o - Oval.ry o + Rect.h r / 2)
                    (Oval.cy o + Oval.ry o - Rect.h r / 2) in
    with_center r nx ny.

Definition onMouseUp_by (test : Oval.t -> Rect.t -> bool) (st : State)
  : State :=
  setRects (map (fun r => recenter_by (test (oval st) r) (oval st) r))
           (setDrag None st).

(** ** Option buttons *)

(** [sqrt] and the divisions are exact here; the source rounds each of
    them, so its [w] and [h] agree with these up to rounding. *)
Definition normalize_one (r : Rect.t) : Rect.t :=
  let w := sqrt (Rect.area r * (Rect.w r / Rect.h r)) in
  let h := Rect.area r / w in
  with_size r w h.

Definition normalize (st : State) : State :=
  setRects (fun _ => map normalize_one (rects st)) st.

(** [random] is the value returned by the call of [Math.random()] made for
    this rectangle. *)
Definition randomize_one (random : R) (r : Rect.t) : Rect.t :=
  let aspect := clamp (random * 3 + 0.5) 0.5 3.5 in
  let h := sqrt (Rect.area r / aspect) in
  let w := Rect.area r / h in
  with_size r w h.

(** [rnd k] is the result of the [k]-th call of [Math.random()] during the
    click; [rects.map] makes one call per rectangle, in order. *)
Definition randomizeAspect (rnd : nat -> R) (st : State) : State :=
  setRects (fun _ => mapi (fun r k => randomize_one (rnd k) r) (rects st)) st.

(** ** Events *)

Inductive Event : Type :=
| MouseDownRectMove (e : MouseEvent) (id : string)
| MouseDownRectW (e : MouseEvent) (id : string) (direction : R)
| MouseDownRectH (e : MouseEvent) (id : string) (direction : R)
| MouseDownOvalRX (e : MouseEvent) (direction : R)
| MouseDownOvalRY (e : MouseEvent) (direction : R)
| MouseMove (e : MouseEvent)
| MouseUp
| MouseLeave
| ClickNormalize
| ClickRandomize (rnd : nat -> R).

Definition handle (ev : Event) (st : State) : State :=
  match ev with
  | MouseDownRectMove e id => onMouseDownRectMove e id st
  | MouseDownRectW e id direction => onMouseDownRectW e id direction st
  | MouseDownRectH e id direction => onMouseDownRectH e id direction st
  | MouseDownOvalRX e direction => onMouseDownOvalRX e direction st
  | MouseDownOvalRY e direction => onMouseDownOvalRY e direction st
  | MouseMove e => onMouseMove e st
  | MouseUp | MouseLeave => onMouseUp st
  | ClickNormalize => normalize st
  | ClickRandomize rnd => randomizeAspect rnd st
  end.

(** The state after a sequence of events, oldest first. *)
Definition run (evs : list Event) (st : State) : State :=
  fold_left (fun s ev => handle ev s) evs st.

(** ** Properties referred to by the statements below *)

(** What [setRects] never changes in a rectangle. *)
Definition same_identity (r r' : Rect.t) : Prop :=
  Rect.id r' = Rect.id r /\ Rect.area r' = Rect.area r /\
  Rect.color r' = Rect.color r.

(** What the option buttons leave as it is: everything but [w] and [h]. *)
Definition same_but_size (r r' : Rect.t) : Prop :=
  same_identity r r' /\ Rect.cx r' = Rect.cx r /\ Rect.cy r' = Rect.cy r.

(** The rectangle snapshot of a session, if it has one. *)
Definition drag_snapshot (d : Drag) : option Rect.t :=
  match d with
  | moveRect _ _ _ o | resizeRectW _ _ _ o _ | resizeRectH _ _ _ o _ => o
  | resizeOvalRX _ _ _ _ | resizeOvalRY _ _ _ _ => None
  end.

Definition unique_ids (st : State) : Prop := NoDup (map Rect.id (rects st)).

(** The snapshot of the active session carries the area of the rectangle
    it was taken from. *)
Definition snapshot_consistent (st : State) : Prop :=
  forall d s r,
    dragRef st = Some d -> drag_snapshot d = Some s ->
    In r (rects st) -> Some (Rect.id r) = drag_id d ->
    Rect.area r = Rect.area s.

(** A session without snapshot addresses no rectangle. *)
Definition missing_snapshot_has_no_target (st : State) : Prop :=
  forall d r,
    dragRef st = Some d -> drag_snapshot d = None ->
    In r (rects st) -> Some (Rect.id r) <> drag_id d.

Definition wf (st : State) : Prop :=
  unique_ids st /\ snapshot_consistent st.

(** The data model's rectangles: positive area, width and height. *)
Definition positive (r : Rect.t) : Prop :=
  0 < Rect.area r /\ 0 < Rect.w r /\ 0 < Rect.h r.

(** The configured bounds of the radii. *)
Definition radii_in_bounds (o : Oval.t) : Prop :=
  60 <= Oval.rx o <= W / 2 - 40 /\ 60 <= Oval.ry o <= H / 2 - 40.

(** [v'] is [v] restricted to the interval from [lo] to [hi], in the words
    of the specification and without reference to [clamp]: it is
    [max(lo, min(hi, v))]; for [lo <= hi] it lies within the interval, is
    [v] when [v] lies within, [lo] when [v] is below and [hi] when [v] is
    above; for an empty interval ([hi < lo]) it is [lo]. *)
Definition clamped_to (v lo hi v' : R) : Prop :=
  v' = Rmax lo (Rmin hi v) /\
  (lo <= hi -> lo <= v' <= hi) /\
  (lo <= v <= hi -> v' = v) /\
  (v < lo -> v' = lo) /\
  (lo <= hi -> hi < v -> v' = hi) /\
  (hi < lo -> v' = lo).

(** Which events write the oval: a pointer move inside an oval session. *)
Definition resizes_oval (ev : Event) (st : State) : bool :=
  match ev, dragRef st with
  | MouseMove _, Some (resizeOvalRX _ _ _ _)
  | MouseMove _, Some (resizeOvalRY _ _ _ _) => true
  | _, _ => false
  end.

(** A run of pointer-move events, oldest first. *)
Definition moves (es : list MouseEvent) (st : State) : State :=
  fold_left (fun s e => onMouseMove e s) es st.

(** ** Rendered handles *)

(** A handle drawn as a [<circle>]: its position and the event its
    [onMouseDown] raises for a pointer event. *)
Record Handle : Type := mkHandle {
  hx : R;
  hy : R;
  onMouseDown : MouseEvent -> Event
}.

(** The four oval resize handles, in the order of the markup: right, left,
    top, bottom. *)
Definition ovalHandles (o : Oval.t) : list Handle :=
  [ mkHandle (Oval.cx o + Oval.rx o) (Oval.cy o)
             (fun e => MouseDownOvalRX e 1);
    mkHandle (Oval.cx o - Oval.rx o) (Oval.cy o)
             (fun e => MouseDownOvalRX e (-1));
    mkHandle (Oval.cx o) (Oval.cy o - Oval.ry o)
             (fun e => MouseDownOvalRY e (-1));
    mkHandle (Oval.cx o) (Oval.cy o + Oval.ry o)
             (fun e => MouseDownOvalRY e 1) ].

(** The five handles of a rectangle, in the order of the markup: the center
    dot, the two width handles (right, left) and the two height handles
    (top, bottom). *)
Definition rectHandles (r : Rect.t) : list Handle :=
  let x := Rect.cx r - Rect.w r / 2 in
  let y := Rect.cy r - Rect.h r / 2 in
  [ mkHandle (Rect.cx r) (Rect.cy r)
             (fun e => MouseDownRectMove e (Rect.id r));
    mkHandle (x + Rect.w r) (Rect.cy r)
             (fun e => MouseDownRectW e (Rect.id r) 1);
    mkHandle x (Rect.cy r)
             (fun e => MouseDownRectW e (Rect.id r) (-1));
    mkHandle (Rect.cx r) y
             (fun e => MouseDownRectH e (Rect.id r) (-1));
    mkHandle (Rect.cx r) (y + Rect.h r)
             (fun e => MouseDownRectH e (Rect.id r) 1) ].

(** Pressing the handle [hd] with the pointer at [p], then moving the
    pointer to [q]. *)
Definition press_and_move (hd : Handle) (p q : MouseEvent) (st : State)
  : State :=
  onMouseMove q (handle (onMouseDown hd p) st).

(** Whether the active session, if any, is a rectangle move. *)
Definition move_session (st : State) : bool :=
  match dragRef st with
  | Some (moveRect _ _ _ _) => true
  | _ => false
  end.

(** The area law of a rectangle. *)
Definition area_law (r : Rect.t) : Prop := Rect.w r * Rect.h r = Rect.area r.

(** Whether the center of [r] passes the containment test of [o]. *)
Definition center_inside (o : Oval.t) (r : Rect.t) : bool :=
  insideEllipse (Rect.cx r) (Rect.cy r)
                (Oval.cx o) (Oval.cy o) (Oval.rx o) (Oval.ry o).

(** * Auxiliary lemmas *)

Ltac case_clamp :=
  unfold clamp, Rmax, Rmin, W, H in *;
  repeat (destruct (Rle_dec _ _); try lra).

Section Clamp.
Variables v lo hi : R.

Lemma clamp_bounds : lo <= hi -> lo <= clamp v lo hi <= hi.
Proof. intros; case_clamp. Qed.

Lemma clamp_inside : lo <= v <= hi -> clamp v lo hi = v.
Proof. intros; case_clamp. Qed.

Lemma clamp_lower : lo <= clamp v lo hi.
Proof. case_clamp. Qed.
End Clamp.

Lemma clamp_clamped_to v lo hi : clamped_to v lo hi (clamp v lo hi).
Proof.
  unfold clamped_to; split; [reflexivity|].
  repeat (split; [intros; case_clamp|]); intros; case_clamp.
Qed.

Section Lists.
Context {A B : Type}.

Lemma map_fixed (f : A -> A) (l : list A) :
  (forall x, In x l -> f x = x) -> map f l = l.
Proof.
  induction l as [|a l IH]; intros Hf; simpl; [reflexivity|].
  rewrite Hf by (left; reflexivity).
  rewrite IH; [reflexivity|].
  intros x Hx; apply Hf; right; exact Hx.
Qed.

Lemma Forall2_map_self (P : A -> B -> Prop) (f : A -> B) (l : list A) :
  (forall x, P x (f x)) -> Forall2 P l (map f l).
Proof. intros Hf; induction l; simpl; constructor; auto. Qed.

Lemma Forall2_mapi_from (P : A -> B -> Prop) (f : A -> nat -> B) (l : list A) :
  (forall x k, P x (f x k)) -> forall i, Forall2 P l (mapi_from f i l).
Proof. intros Hf; induction l; intros i; simpl; constructor; auto. Qed.

Lemma Forall2_In_r (P : A -> B -> Prop) (l : list A) (l' : list B) (y : B) :
  Forall2 P l l' -> In y l' -> exists x, In x l /\ P x y.
Proof.
  induction 1 as [|x y' l l' Hxy _ IH]; simpl; [intros []|].
  intros [<-|Hy].
  - exists x; auto.
  - destruct (IH Hy) as (x' & Hx' & HP); exists x'; auto.
Qed.

Lemma nth_error_mapi_from (f : A -> nat -> B) (l : list A) :
  forall i k,
    nth_error (mapi_from f i l) k
    = option_map (fun a => f a (i + k)%nat) (nth_error l k).
Proof.
  induction l as [|a l IH]; intros i [|k]; simpl; try reflexivity.
  - rewrite Nat.add_0_r; reflexivity.
  - rewrite IH; simpl. rewrite Nat.add_succ_r; reflexivity.
Qed.
End Lists.

Lemma same_identity_refl r : same_identity r r.
Proof. repeat split. Qed.

Lemma same_identity_center r x y : same_identity r (with_center r x y).
Proof. repeat split. Qed.

Lemma same_identity_size r x y : same_identity r (with_size r x y).
Proof. repeat split. Qed.

Lemma same_identity_move i dx dy r : same_identity r (move_one i dx dy r).
Proof. unfold move_one; destruct (negb _); repeat split. Qed.

Lemma same_identity_resize i x y r : same_identity r (resize_one i x y r).
Proof. unfold resize_one; destruct (String.eqb _ _); repeat split. Qed.

Lemma same_identity_recenter o r : same_identity r (recenter o r).
Proof. unfold recenter; destruct (insideEllipse _ _ _ _ _ _); repeat split. Qed.

Lemma same_identity_normalize r : same_identity r (normalize_one r).
Proof. repeat split. Qed.

Lemma same_identity_randomize x r : same_identity r (randomize_one x r).
Proof. repeat split. Qed.

Create HintDb rects.

#[local] Hint Resolve same_identity_refl same_identity_center
  same_identity_size same_identity_move same_identity_resize
  same_identity_recenter same_identity_normalize same_identity_randomize
  : rects.

Lemma Forall2_same_identity_refl l : Forall2 same_identity l l.
Proof. induction l; constructor; auto with rects. Qed.

(** No handler adds, removes, reorders or renames a rectangle, or changes
    its area or colour. *)
Lemma handle_same_identity ev st :
  Forall2 same_identity (rects st) (rects (handle ev st)).
Proof.
  destruct ev; simpl;
    try apply Forall2_same_identity_refl;
    try (apply Forall2_map_self; auto with rects).
  - unfold onMouseMove.
    destruct (dragRef st) as [[i ? ? o|i ? ? [s|] ?|i ? ? [s|] ?|? ? ? ?|? ? ? ?]|];
      simpl; try apply Forall2_same_identity_refl.
    + destruct (truthy i && is_some o); simpl;
        [apply Forall2_map_self; auto with rects
        |apply Forall2_same_identity_refl].
    + destruct (truthy i); simpl;
        [apply Forall2_map_self; auto with rects
        |apply Forall2_same_identity_refl].
    + destruct (truthy i); simpl;
        [apply Forall2_map_self; auto with rects
        |apply Forall2_same_identity_refl].
  - unfold mapi; apply Forall2_mapi_from; auto with rects.
Qed.

Lemma Forall2_same_identity_ids l l' :
  Forall2 same_identity l l' -> map Rect.id l' = map Rect.id l.
Proof.
  induction 1 as [|r r' l l' (Hid & _) _ IH]; simpl; [reflexivity|].
  rewrite Hid, IH; reflexivity.
Qed.

Lemma handle_ids ev st :
  map Rect.id (rects (handle ev st)) = map Rect.id (rects st).
Proof. apply Forall2_same_identity_ids, handle_same_identity. Qed.

Lemma find_rect_In i l r :
  find_rect i l = Some r -> In r l /\ Rect.id r = i.
Proof.
  unfold find_rect; intros Hf.
  apply find_some in Hf as [Hin Heq].
  apply String.eqb_eq in Heq; auto.
Qed.

Lemma find_rect_None i l r :
  find_rect i l = None -> In r l -> Rect.id r <> i.
Proof.
  unfold find_rect; intros Hf Hin Heq.
  apply (find_none _ _ Hf) in Hin.
  apply String.eqb_neq in Hin; contradiction.
Qed.

Lemma find_rect_map f i l :
  (forall r, Rect.id (f r) = Rect.id r) ->
  find_rect i (map f l) = option_map f (find_rect i l).
Proof.
  intros Hf; unfold find_rect.
  induction l as [|a l IH]; simpl; [reflexivity|].
  rewrite Hf. destruct (String.eqb (Rect.id a) i); [reflexivity|exact IH].
Qed.

Lemma unique_ids_eq l r r' :
  NoDup (map Rect.id l) -> In r l -> In r' l -> Rect.id r = Rect.id r' ->
  r = r'.
Proof.
  induction l as [|a l IH]; simpl; [intros _ []|].
  intros Hnd Hr Hr' Hid.
  apply NoDup_cons_iff in Hnd as [Hnotin Hnd].
  destruct Hr as [->|Hr], Hr' as [->|Hr']; auto.
  - exfalso; apply Hnotin; rewrite Hid; apply in_map; exact Hr'.
  - exfalso; apply Hnotin; rewrite <- Hid; apply in_map; exact Hr.
Qed.

Lemma initialRects_ids :
  map Rect.id initialRects = ["R1"; "R2"; "R3"; "R4"]%string.
Proof. reflexivity. Qed.

(** * Invariants of the reachable states *)

Lemma dragRef_onMouseMove e st : dragRef (onMouseMove e st) = dragRef st.
Proof.
  unfold onMouseMove.
  destruct (dragRef st) as [[i ? ? o|i ? ? [s|] ?|i ? ? [s|] ?|? ? ? ?|? ? ? ?]|]
    eqn:Hd; simpl; auto.
  - destruct (truthy i && is_some o); simpl; auto.
  - destruct (truthy i); simpl; auto.
  - destruct (truthy i); simpl; auto.
Qed.

Lemma handle_unique_ids ev st : unique_ids st -> unique_ids (handle ev st).
Proof. unfold unique_ids; rewrite handle_ids; auto. Qed.

(** A step that keeps the session and the identity of every rectangle keeps
    the snapshot consistent. *)
Lemma snapshot_consistent_frame st st' :
  dragRef st' = dragRef st ->
  Forall2 same_identity (rects st) (rects st') ->
  snapshot_consistent st -> snapshot_consistent st'.
Proof.
  intros Hd Hr Hc d s r' Hd' Hs Hin Hid.
  destruct (Forall2_In_r _ _ _ _ Hr Hin) as (r & Hr0 & Hi & Ha & _).
  rewrite Ha. apply (Hc d s r); auto; congruence.
Qed.

Lemma snapshot_consistent_down st d i :
  unique_ids st ->
  drag_id d = Some i -> drag_snapshot d = find_rect i (rects st) ->
  snapshot_consistent (setDrag (Some d) st).
Proof.
  intros Hu Hi Hs d' s r Hd' Hs' Hin Hid; simpl in *.
  injection Hd' as <-.
  rewrite Hs in Hs'. apply find_rect_In in Hs' as [Hin' Hid'].
  rewrite Hi in Hid; injection Hid as Hid.
  f_equal. apply (unique_ids_eq (rects st)); auto; congruence.
Qed.

Lemma wf_handle ev st : wf st -> wf (handle ev st).
Proof.
  intros [Hu Hc]; split; [apply handle_unique_ids; exact Hu|].
  pose proof (handle_same_identity ev st) as Hr.
  destruct ev; simpl in *;
    try (apply (snapshot_consistent_down st _ id); auto; fail);
    try (apply (snapshot_consistent_frame st); auto; fail).
  - intros d s r Hd Hs; simpl in Hd; injection Hd as <-; discriminate.
  - intros d s r Hd Hs; simpl in Hd; injection Hd as <-; discriminate.
  - apply (snapshot_consistent_frame st); auto using dragRef_onMouseMove.
  - intros d s r Hd; discriminate.
  - intros d s r Hd; discriminate.
Qed.

Lemma wf_run evs : forall st, wf st -> wf (run evs st).
Proof.
  unfold run; induction evs as [|ev evs IH]; simpl; intros st Hwf; auto.
  apply IH, wf_handle, Hwf.
Qed.

Lemma wf_initialState : wf initialState.
Proof.
  split.
  - unfold unique_ids; simpl rects; rewrite initialRects_ids.
    repeat constructor; simpl; intuition discriminate.
  - intros d s r Hd; discriminate.
Qed.

Lemma missing_snapshot_frame st st' :
  dragRef st' = dragRef st ->
  Forall2 same_identity (rects st) (rects st') ->
  missing_snapshot_has_no_target st -> missing_snapshot_has_no_target st'.
Proof.
  intros Hd Hr Hc d r' Hd' Hs Hin Hid.
  destruct (Forall2_In_r _ _ _ _ Hr Hin) as (r & Hr0 & Hi & _).
  apply (Hc d r); auto; congruence.
Qed.

Lemma missing_snapshot_down st d i :
  drag_id d = Some i -> drag_snapshot d = find_rect i (rects st) ->
  missing_snapshot_has_no_target (setDrag (Some d) st).
Proof.
  intros Hi Hs d' r Hd' Hs' Hin Hid; simpl in *.
  injection Hd' as <-.
  rewrite Hs in Hs'. rewrite Hi in Hid; injection Hid as Hid.
  exact (find_rect_None _ _ _ Hs' Hin Hid).
Qed.

Lemma missing_snapshot_handle ev st :
  missing_snapshot_has_no_target st ->
  missing_snapshot_has_no_target (handle ev st).
Proof.
  intros Hc.
  pose proof (handle_same_identity ev st) as Hr.
  destruct ev; simpl in *;
    try (apply (missing_snapshot_down st _ id); auto; fail);
    try (apply (missing_snapshot_frame st); auto; fail).
  - intros d r Hd Hs Hin Hid; simpl in Hd; injection Hd as <-; discriminate.
  - intros d r Hd Hs Hin Hid; simpl in Hd; injection Hd as <-; discriminate.
  - apply (missing_snapshot_frame st); auto using dragRef_onMouseMove.
  - intros d r Hd; discriminate.
  - intros d r Hd; discriminate.
Qed.

(** From an idle state, a rectangle session that holds no snapshot never
    addresses a rectangle of the collection: the branch of [onMouseMove]
    for such a session has nothing to write to. *)
Lemma resize_without_snapshot_has_no_target evs :
  forall st,
    dragRef st = None ->
    missing_snapshot_has_no_target (run evs st).
Proof.
  assert (Hgen : forall st, missing_snapshot_has_no_target st ->
                            missing_snapshot_has_no_target (run evs st)).
  { unfold run; induction evs as [|ev evs IH]; simpl; intros st H; auto.
    apply IH, missing_snapshot_handle, H. }
  intros st Hidle; apply Hgen.
  intros d r Hd; congruence.
Qed.

(** Positive dimensions are kept by every handler. *)

Lemma positive_center r x y : positive r -> positive (with_center r x y).
Proof. intros H; exact H. Qed.

Lemma positive_size r x y :
  0 < Rect.area r -> 0 < x -> 0 < y -> positive (with_size r x y).
Proof. intros; repeat split; assumption. Qed.

Lemma positive_move i dx dy r : positive r -> positive (move_one i dx dy r).
Proof. unfold move_one; destruct (negb _); auto using positive_center. Qed.

Lemma positive_recenter o r : positive r -> positive (recenter o r).
Proof.
  unfold recenter; destruct (insideEllipse _ _ _ _ _ _);
    auto using positive_center.
Qed.

Lemma positive_resize i x y r :
  0 < x -> 0 < y -> positive r -> positive (resize_one i x y r).
Proof.
  intros Hx Hy Hr; unfold resize_one; destruct (String.eqb _ _); auto.
  destruct Hr as (Ha & _); apply positive_size; assumption.
Qed.

Lemma normalize_width_pos r :
  positive r -> 0 < sqrt (Rect.area r * (Rect.w r / Rect.h r)).
Proof.
  intros (Ha & Hw & Hh).
  apply sqrt_lt_R0, Rmult_lt_0_compat; [exact Ha|].
  apply Rdiv_lt_0_compat; assumption.
Qed.

Lemma positive_normalize r : positive r -> positive (normalize_one r).
Proof.
  intros Hr; pose proof (normalize_width_pos r Hr) as Hw.
  destruct Hr as (Ha & _).
  unfold normalize_one; apply positive_size; auto.
  apply Rdiv_lt_0_compat; assumption.
Qed.

Lemma aspect_bounds x : 0.5 <= clamp (x * 3 + 0.5) 0.5 3.5 <= 3.5.
Proof. apply clamp_bounds; lra. Qed.

Lemma randomize_height_pos x r :
  0 < Rect.area r ->
  0 < sqrt (Rect.area r / clamp (x * 3 + 0.5) 0.5 3.5).
Proof.
  intros Ha; pose proof (aspect_bounds x) as Hb.
  apply sqrt_lt_R0, Rdiv_lt_0_compat; [exact Ha|lra].
Qed.

Lemma positive_randomize x r : positive r -> positive (randomize_one x r).
Proof.
  intros (Ha & _); pose proof (randomize_height_pos x r Ha) as Hh.
  unfold randomize_one; apply positive_size; auto.
  apply Rdiv_lt_0_compat; assumption.
Qed.

Lemma Forall_mapi_from {A B : Type} (P : A -> Prop) (Q : B -> Prop)
  (f : A -> nat -> B) (l : list A) :
  (forall a k, P a -> Q (f a k)) ->
  forall i, Forall P l -> Forall Q (mapi_from f i l).
Proof.
  intros Hf; induction l as [|a l IH]; intros i Hl; simpl; constructor.
  - apply Hf; inversion Hl; assumption.
  - apply IH; inversion Hl; assumption.
Qed.

Lemma Forall_map_pres {A : Type} (P : A -> Prop) (f : A -> A) (l : list A) :
  (forall a, P a -> P (f a)) -> Forall P l -> Forall P (map f l).
Proof.
  intros Hf Hl; apply Forall_map; revert Hl; apply Forall_impl; exact Hf.
Qed.

Lemma positive_handle ev st :
  Forall positive (rects st) -> Forall positive (rects (handle ev st)).
Proof.
  intros Hp; destruct ev; simpl; auto.
  - unfold onMouseMove.
    destruct (dragRef st) as [[i ? ? o|i ? ? [s|] ?|i ? ? [s|] ?|? ? ? ?|? ? ? ?]|];
      simpl; auto.
    + destruct (truthy i && is_some o); simpl; auto.
      apply Forall_map_pres; auto using positive_move.
    + destruct (truthy i); simpl; auto.
      apply Forall_map_pres; auto.
      intros a; apply positive_resize.
      * eapply Rlt_le_trans; [|apply Rmax_l]; lra.
      * eapply Rlt_le_trans; [|apply clamp_lower]; lra.
    + destruct (truthy i); simpl; auto.
      apply Forall_map_pres; auto.
      intros a; apply positive_resize.
      * eapply Rlt_le_trans; [|apply clamp_lower]; lra.
      * eapply Rlt_le_trans; [|apply Rmax_l]; lra.
  - apply Forall_map_pres; auto using positive_recenter.
  - apply Forall_map_pres; auto using positive_recenter.
  - apply Forall_map_pres; auto using positive_normalize.
  - unfold mapi; apply (Forall_mapi_from positive); auto.
    intros; apply positive_randomize; assumption.
Qed.

Lemma positive_run evs :
  forall st, Forall positive (rects st) -> Forall positive (rects (run evs st)).
Proof.
  unfold run; induction evs as [|ev evs IH]; simpl; intros st Hp; auto.
  apply IH, positive_handle, Hp.
Qed.

Lemma positive_initialState : Forall positive (rects initialState).
Proof. repeat constructor; simpl; lra. Qed.

Lemma oval_unchanged ev st :
  resizes_oval ev st = false -> oval (handle ev st) = oval st.
Proof.
  destruct ev; simpl; auto.
  unfold resizes_oval, onMouseMove.
  destruct (dragRef st) as [[i ? ? o|i ? ? [s|] ?|i ? ? [s|] ?|? ? ? ?|? ? ? ?]|];
    simpl; auto; try discriminate.
  - destruct (truthy i && is_some o); auto.
  - destruct (truthy i); auto.
  - destruct (truthy i); auto.
Qed.

Lemma radii_in_bounds_handle ev st :
  radii_in_bounds (oval st) -> radii_in_bounds (oval (handle ev st)).
Proof.
  intros Hb. destruct (resizes_oval ev st) eqn:Hr.
  - destruct ev; try discriminate. simpl. unfold resizes_oval in Hr.
    unfold onMouseMove.
    destruct (dragRef st) as [[| | |? ? o dir|? ? o dir]|]; try discriminate;
      destruct Hb as [Hx Hy]; split; simpl; auto;
      apply clamp_bounds; unfold W, H; lra.
  - rewrite oval_unchanged; assumption.
Qed.

Lemma radii_in_bounds_initial : radii_in_bounds initialOval.
Proof. unfold radii_in_bounds, W, H; simpl; lra. Qed.

(** * The specification's properties *)

(** C8. In a ResizeEllipseRadiusX session a pointer move sets [rx] to
    [snapshot.rx + dir * dx] restricted to [60, W/2 - 40] = [60, 440] and
    leaves [ry], the center of the oval, the rectangles and the session; in
    a ResizeEllipseRadiusY session it sets [ry] to [snapshot.ry + dir * dy]
    restricted to [60, H/2 - 40] = [60, 240] and leaves the rest; every
    other event leaves the oval as it is; hence the radii stay within
    their bounds along every sequence of events that starts within them. *)
Theorem ellipse_radii_stay_in_bounds :
  (forall st e sx sy o dir,
      dragRef st = Some (resizeOvalRX sx sy o dir) ->
      let st' := onMouseMove e st in
      clamped_to (Oval.rx o + dir * (clientX e - sx)) 60 (W / 2 - 40)
                 (Oval.rx (oval st')) /\
      60 <= Oval.rx (oval st') <= 440 /\
      Oval.ry (oval st') = Oval.ry (oval st) /\
      Oval.cx (oval st') = Oval.cx (oval st) /\
      Oval.cy (oval st') = Oval.cy (oval st) /\
      rects st' = rects st /\ dragRef st' = dragRef st)
  /\ (forall st e sx sy o dir,
      dragRef st = Some (resizeOvalRY sx sy o dir) ->
      let st' := onMouseMove e st in
      clamped_to (Oval.ry o + dir * (clientY e - sy)) 60 (H / 2 - 40)
                 (Oval.ry (oval st')) /\
      60 <= Oval.ry (oval st') <= 240 /\
      Oval.rx (oval st') = Oval.rx (oval st) /\
      Oval.cx (oval st') = Oval.cx (oval st) /\
      Oval.cy (oval st') = Oval.cy (oval st) /\
      rects st' = rects st /\ dragRef st' = dragRef st)
  /\ (forall ev st, resizes_oval ev st = false -> oval (handle ev st) = oval st)
  /\ (forall evs st,
      radii_in_bounds (oval st) -> radii_in_bounds (oval (run evs st)))
  /\ W / 2 - 40 = 440 /\ H / 2 - 40 = 240.
Proof.
  split; [|split; [|split; [|split; [|split]]]].
  - intros st e sx sy o dir Hd; cbv zeta.
    unfold onMouseMove; rewrite Hd; simpl.
    split; [apply clamp_clamped_to|].
    split; [|rewrite Hd; repeat split].
    pose proof (clamp_bounds (Oval.rx o + dir * (clientX e - sx))
                             60 (W / 2 - 40)) as Hb.
    unfold W in *; lra.
  - intros st e sx sy o dir Hd; cbv zeta.
    unfold onMouseMove; rewrite Hd; simpl.
    split; [apply clamp_clamped_to|].
    split; [|rewrite Hd; repeat split].
    pose proof (clamp_bounds (Oval.ry o + dir * (clientY e - sy))
                             60 (H / 2 - 40)) as Hb.
    unfold H in *; lra.
  - apply oval_unchanged.
  - unfold run; induction evs as [|ev evs IH]; simpl; intros st Hb.
    + apply Hb.
    + apply IH, radii_in_bounds_handle; exact Hb.
  - unfold W; lra.
  - unfold H; lra.
Qed.

Lemma ellipse_radii_stay_in_bounds_witness :
  Oval.rx (oval (onMouseMove (mkMouseEvent 1500 280)
                   (onMouseDownOvalRX (mkMouseEvent 800 280) 1
                                      initialState))) = 440
  /\
  radii_in_bounds
    (oval (run [MouseDownOvalRX (mkMouseEvent 800 280) 1;
                MouseMove (mkMouseEvent 1500 280);
                MouseUp;
                MouseDownOvalRY (mkMouseEvent 480 80) (-1);
                MouseMove (mkMouseEvent 480 400)]
               initialState)).
Proof.
  split.
  - destruct (proj1 ellipse_radii_stay_in_bounds
                (onMouseDownOvalRX (mkMouseEvent 800 280) 1 initialState)
                (mkMouseEvent 1500 280) 800 280 initialOval 1 eq_refl)
      as ((_ & _ & _ & _ & Hhi & _) & _).
    etransitivity; [apply Hhi; simpl; unfold W; lra|unfold W; lra].
  - apply (proj1 (proj2 (proj2 (proj2 ellipse_radii_stay_in_bounds)))).
    exact radii_in_bounds_initial.
Defined.

Lemma derived_product x a : x <> 0 -> x * (a / x) = a.
Proof. intros Hx; field; exact Hx. Qed.

Lemma normalize_one_area r :
  positive r ->
  Rect.w (normalize_one r) * Rect.h (normalize_one r)
  = Rect.area (normalize_one r).
Proof.
  intros Hr; pose proof (normalize_width_pos r Hr) as Hw.
  simpl; apply derived_product; lra.
Qed.

Lemma randomize_one_area x r :
  0 < Rect.area r ->
  Rect.w (randomize_one x r) * Rect.h (randomize_one x r)
  = Rect.area (randomize_one x r).
Proof.
  intros Ha; pose proof (randomize_height_pos x r Ha) as Hh.
  simpl; rewrite Rmult_comm; apply derived_product; lra.
Qed.

Lemma normalize_one_120_60 i x y c :
  normalize_one (Rect.mk i x y 120 60 7200 c) = Rect.mk i x y 120 60 7200 c.
Proof.
  unfold normalize_one, with_size; simpl.
  assert (Hs : sqrt (7200 * (120 / 60)) = 120).
  { replace (7200 * (120 / 60)) with (120 * 120) by lra.
    apply sqrt_square; lra. }
  rewrite Hs. f_equal; lra.
Qed.

(** C7. On rectangles with positive area, width and height, [normalize]
    sets [w = sqrt(area * (w / h))] and [h = area / w], and
    [randomizeAspect], whatever [Math.random()] returns, sets
    [h = sqrt(area / aspect)] and [w = area / h] for an aspect within
    [0.5, 3.5]; after either, [w * h = area] for every rectangle.  The
    rectangle of width 120, height 60 and area 7200 is left unchanged by
    [normalize]. *)
Theorem batch_operations_keep_area (st : State) :
  Forall positive (rects st) ->
  (forall k r,
      nth_error (rects st) k = Some r ->
      exists r',
        nth_error (rects (normalize st)) k = Some r' /\
        Rect.w r' = sqrt (Rect.area r * (Rect.w r / Rect.h r)) /\
        Rect.h r' = Rect.area r / Rect.w r' /\
        Rect.w r' * Rect.h r' = Rect.area r')
  /\ (forall i x y c,
      normalize_one (Rect.mk i x y 120 60 7200 c)
      = Rect.mk i x y 120 60 7200 c)
  /\ (forall rnd k r,
      nth_error (rects st) k = Some r ->
      exists r',
        let aspect := clamp (rnd k * 3 + 0.5) 0.5 3.5 in
        nth_error (rects (randomizeAspect rnd st)) k = Some r' /\
        0.5 <= aspect <= 3.5 /\
        Rect.h r' = sqrt (Rect.area r / aspect) /\
        Rect.w r' = Rect.area r / Rect.h r' /\
        Rect.w r' * Rect.h r' = Rect.area r').
Proof.
  intros Hp; split; [|split].
  - intros k r Hk; exists (normalize_one r).
    assert (Hr : positive r).
    { rewrite Forall_forall in Hp; apply Hp; eapply nth_error_In; eauto. }
    split; [|split; [|split]]; try reflexivity.
    + simpl; rewrite nth_error_map, Hk; reflexivity.
    + apply normalize_one_area; exact Hr.
  - apply normalize_one_120_60.
  - intros rnd k r Hk; exists (randomize_one (rnd k) r).
    assert (Hr : positive r).
    { rewrite Forall_forall in Hp; apply Hp; eapply nth_error_In; eauto. }
    cbv zeta; split; [|split; [|split; [|split]]]; try reflexivity.
    + simpl; unfold mapi; rewrite nth_error_mapi_from, Hk; reflexivity.
    + apply aspect_bounds.
    + apply randomize_one_area; apply Hr.
Qed.

Lemma batch_operations_keep_area_witness :
  exists r',
    nth_error (rects (normalize initialState)) 0 = Some r' /\
    Rect.w r' * Rect.h r' = Rect.area r'.
Proof.
  destruct (proj1 (batch_operations_keep_area initialState
                     positive_initialState) 0%nat
                  (Rect.mk "R1" (W / 2 - 320 / 2.2) (H / 2 - 200 / 3)
                           120 60 (120 * 60) "#2563eb")
                  eq_refl)
    as (r' & Hk & _ & _ & Ha).
  exists r'; split; assumption.
Defined.

(** C9. [normalize] and [randomizeAspect] keep the oval and the session,
    and in every rectangle the center, the id, the area and the colour:
    only [w] and [h] are written, and no center is pulled back into the
    oval. *)
Theorem batch_operations_only_resize (st : State) (rnd : nat -> R) :
  (oval (normalize st) = oval st /\
   dragRef (normalize st) = dragRef st /\
   Forall2 same_but_size (rects st) (rects (normalize st)))
  /\
  (oval (randomizeAspect rnd st) = oval st /\
   dragRef (randomizeAspect rnd st) = dragRef st /\
   Forall2 same_but_size (rects st) (rects (randomizeAspect rnd st))).
Proof.
  split; (split; [reflexivity|split; [reflexivity|]]); simpl.
  - apply Forall2_map_self; intros r; repeat split.
  - unfold mapi; apply Forall2_mapi_from; intros r k; repeat split.
Qed.

(** C10. A pointer move in a session whose target id is the id of no
    rectangle leaves the whole state as it is. *)
Theorem unknown_target_is_noop (st : State) (d : Drag) (i : string)
  (e : MouseEvent) :
  dragRef st = Some d ->
  drag_id d = Some i ->
  (forall r, In r (rects st) -> Rect.id r <> i) ->
  onMouseMove e st = st.
Proof.
  intros Hd Hi Hno.
  assert (Hmove : forall dx dy, map (move_one i dx dy) (rects st) = rects st).
  { intros dx dy; apply map_fixed; intros r Hr; unfold move_one.
    apply Hno, String.eqb_neq in Hr; rewrite Hr; reflexivity. }
  assert (Hsize : forall x y, map (resize_one i x y) (rects st) = rects st).
  { intros x y; apply map_fixed; intros r Hr; unfold resize_one.
    apply Hno, String.eqb_neq in Hr; rewrite Hr; reflexivity. }
  unfold onMouseMove; rewrite Hd.
  destruct d as [j ? ? o|j ? ? [s|] ?|j ? ? [s|] ?|? ? ? ?|? ? ? ?];
    simpl in Hi; try discriminate; injection Hi as ->; auto.
  - destruct (truthy i && is_some o); auto.
    unfold setRects; rewrite Hmove; destruct st; reflexivity.
  - destruct (truthy i); auto.
    unfold setRects; rewrite Hsize; destruct st; reflexivity.
  - destruct (truthy i); auto.
    unfold setRects; rewrite Hsize; destruct st; reflexivity.
Qed.

Lemma unknown_target_is_noop_witness :
  onMouseMove (mkMouseEvent 150 100)
    (mkState initialRects initialOval
       (Some (moveRect "R9" 100 100
                (Some (Rect.mk "R9" 0 0 120 60 7200 "#000000")))))
  = mkState initialRects initialOval
      (Some (moveRect "R9" 100 100
               (Some (Rect.mk "R9" 0 0 120 60 7200 "#000000")))).
Proof.
  eapply (unknown_target_is_noop _ _ "R9"); [reflexivity|reflexivity|].
  simpl; intros r [<-|[<-|[<-|[<-|[]]]]]; discriminate.
Defined.

(** ** Rectangle resize sessions *)

Section ResizeSession.
Variables (st : State) (e : MouseEvent) (i : string) (sx sy : R)
          (s : Rect.t) (dir : R).
Hypothesis Htruthy : truthy i = true.

Lemma rects_resizeRectW :
  dragRef st = Some (resizeRectW i sx sy (Some s) dir) ->
  rects (onMouseMove e st)
  = let w := Rmax 20 (Rect.w s + dir * (clientX e - sx)) in
    map (resize_one i w (clamp (Rect.area s / w) 10 600)) (rects st).
Proof.
  intros Hd; unfold onMouseMove; rewrite Hd, Htruthy; reflexivity.
Qed.

Lemma rects_resizeRectH :
  dragRef st = Some (resizeRectH i sx sy (Some s) dir) ->
  rects (onMouseMove e st)
  = let h := Rmax 10 (Rect.h s + dir * (clientY e - sy)) in
    map (resize_one i (clamp (Rect.area s / h) 20 900) h) (rects st).
Proof.
  intros Hd; unfold onMouseMove; rewrite Hd, Htruthy; reflexivity.
Qed.
End ResizeSession.

Lemma resize_one_target i x y l r' :
  In r' (map (resize_one i x y) l) -> Rect.id r' = i ->
  exists r, In r l /\ Rect.id r = i /\ r' = with_size r x y.
Proof.
  intros Hin Hid; apply in_map_iff in Hin as (r & <- & Hr).
  exists r; split; [exact Hr|].
  unfold resize_one in *.
  destruct (String.eqb (Rect.id r) i) eqn:Heq.
  - apply String.eqb_eq in Heq; auto.
  - apply String.eqb_neq in Heq; contradiction.
Qed.

(** C1. In a rectangle width or height resize session, on a state whose
    rectangles have distinct ids and whose snapshot carries the area of its
    rectangle, a pointer move for which neither the floor nor the clamp of
    the derived dimension fires leaves the resized rectangle with
    [w * h = area], exactly. *)
Theorem resize_keeps_area (st : State) (e : MouseEvent) (i : string)
  (sx sy : R) (s : Rect.t) (dir : R) (r' : Rect.t) :
  wf st ->
  truthy i = true ->
  ((dragRef st = Some (resizeRectW i sx sy (Some s) dir) /\
    20 <= Rect.w s + dir * (clientX e - sx) /\
    10 <= Rect.area s / (Rect.w s + dir * (clientX e - sx)) <= 600)
   \/
   (dragRef st = Some (resizeRectH i sx sy (Some s) dir) /\
    10 <= Rect.h s + dir * (clientY e - sy) /\
    20 <= Rect.area s / (Rect.h s + dir * (clientY e - sy)) <= 900)) ->
  In r' (rects (onMouseMove e st)) ->
  Rect.id r' = i ->
  Rect.w r' * Rect.h r' = Rect.area r'.
Proof.
  intros [_ Hc] Ht [(Hd & Hfloor & Hclamp)|(Hd & Hfloor & Hclamp)] Hin Hid.
  - rewrite (rects_resizeRectW st e i sx sy s dir Ht Hd) in Hin.
    cbv zeta in Hin.
    apply resize_one_target in Hin as (r & Hr & Hri & ->); [|exact Hid].
    assert (Ha : Rect.area r = Rect.area s).
    { apply (Hc _ s r Hd); simpl; auto; congruence. }
    simpl. rewrite Ha, Rmax_right by exact Hfloor.
    rewrite clamp_inside by exact Hclamp.
    apply derived_product; lra.
  - rewrite (rects_resizeRectH st e i sx sy s dir Ht Hd) in Hin.
    cbv zeta in Hin.
    apply resize_one_target in Hin as (r & Hr & Hri & ->); [|exact Hid].
    assert (Ha : Rect.area r = Rect.area s).
    { apply (Hc _ s r Hd); simpl; auto; congruence. }
    simpl. rewrite Ha, Rmax_right by exact Hfloor.
    rewrite clamp_inside by exact Hclamp.
    rewrite Rmult_comm; apply derived_product; lra.
Qed.

(** C4. In a width resize session, a pointer move that drives
    [snapshot.w + dir * dx] below 20 leaves the resized rectangle with
    width exactly 20 and with height [area / 20] restricted to [10, 600]:
    [max(10, min(600, area / 20))], which lies in [10, 600], is [area / 20]
    when that lies within, 10 when it is below and 600 when it is above.
    [area] is the snapshot's, which is the rectangle's own on a well-formed
    state. *)
Theorem width_floor (st : State) (e : MouseEvent) (i : string)
  (sx sy : R) (s : Rect.t) (dir : R) (r' : Rect.t) :
  dragRef st = Some (resizeRectW i sx sy (Some s) dir) ->
  truthy i = true ->
  Rect.w s + dir * (clientX e - sx) < 20 ->
  In r' (rects (onMouseMove e st)) ->
  Rect.id r' = i ->
  Rect.w r' = 20 /\
  clamped_to (Rect.area s / 20) 10 600 (Rect.h r') /\
  10 <= Rect.h r' <= 600 /\
  (wf st -> Rect.area r' = Rect.area s).
Proof.
  intros Hd Ht Hlow Hin Hid.
  rewrite (rects_resizeRectW st e i sx sy s dir Ht Hd) in Hin.
  cbv zeta in Hin.
  rewrite Rmax_left in Hin by lra.
  apply resize_one_target in Hin as (r & Hr & Hri & ->); [|exact Hid].
  simpl; split; [reflexivity|].
  split; [apply clamp_clamped_to|].
  split; [apply clamp_bounds; lra|].
  intros [_ Hc]. apply (Hc _ s r Hd); simpl; auto; congruence.
Qed.

Lemma resize_keeps_area_witness :
  exists r',
    In r' (rects (onMouseMove (mkMouseEvent 150 100)
                    (onMouseDownRectW (mkMouseEvent 100 100) "R1" 1
                                      initialState))) /\
    Rect.id r' = "R1"%string /\
    Rect.w r' * Rect.h r' = Rect.area r'.
Proof.
  eexists; split; [left; reflexivity|split; [reflexivity|]].
  eapply (resize_keeps_area
            (onMouseDownRectW (mkMouseEvent 100 100) "R1" 1 initialState)
            (mkMouseEvent 150 100) "R1" 100 100 _ 1).
  - exact (wf_handle (MouseDownRectW (mkMouseEvent 100 100) "R1" 1)
                     initialState wf_initialState).
  - reflexivity.
  - left; split; [reflexivity|]; simpl; lra.
  - left; reflexivity.
  - reflexivity.
Defined.

Lemma width_floor_witness :
  exists r',
    In r' (rects (onMouseMove (mkMouseEvent (-50) 100)
                    (onMouseDownRectW (mkMouseEvent 100 100) "R1" 1
                                      initialState))) /\
    Rect.w r' = 20 /\
    Rect.h r' = 360.
Proof.
  eexists; split; [left; reflexivity|].
  destruct (width_floor
              (onMouseDownRectW (mkMouseEvent 100 100) "R1" 1 initialState)
              (mkMouseEvent (-50) 100) "R1" 100 100
              (Rect.mk "R1" (W / 2 - 320 / 2.2) (H / 2 - 200 / 3)
                       120 60 (120 * 60) "#2563eb")
              1
              (Rect.mk "R1" (W / 2 - 320 / 2.2) (H / 2 - 200 / 3)
                       (Rmax 20 (120 + 1 * (-50 - 100)))
                       (clamp (120 * 60 / Rmax 20 (120 + 1 * (-50 - 100)))
                              10 600)
                       (120 * 60) "#2563eb"))
    as (Hw & (_ & _ & Hin & _) & _).
  - reflexivity.
  - reflexivity.
  - simpl; lra.
  - left; reflexivity.
  - reflexivity.
  - split; [exact Hw|].
    etransitivity; [apply Hin; simpl; lra|simpl; lra].
Defined.

(** ** Sessions stay anchored to their snapshot *)

Lemma dragRef_moves es : forall st, dragRef (moves es st) = dragRef st.
Proof.
  unfold moves; induction es as [|e es IH]; simpl; intros st; auto.
  rewrite IH; apply dragRef_onMouseMove.
Qed.

Lemma find_rect_same_identity i l l' :
  Forall2 same_identity l l' ->
  is_some (find_rect i l') = is_some (find_rect i l).
Proof.
  unfold find_rect.
  induction 1 as [|r r' l l' (Hid & _) _ IH]; simpl; [reflexivity|].
  rewrite Hid; destruct (String.eqb (Rect.id r) i); [reflexivity|exact IH].
Qed.

Lemma find_rect_moves i es :
  forall st,
    is_some (find_rect i (rects (moves es st)))
    = is_some (find_rect i (rects st)).
Proof.
  unfold moves; induction es as [|e es IH]; simpl; intros st; auto.
  rewrite IH.
  apply find_rect_same_identity, (handle_same_identity (MouseMove e)).
Qed.

Lemma resize_one_id i x y r : Rect.id (resize_one i x y r) = Rect.id r.
Proof. apply same_identity_resize. Qed.

(** The width written by a pointer move of a width session. *)
Lemma width_after_move st e i sx sy s dir :
  dragRef st = Some (resizeRectW i sx sy (Some s) dir) ->
  truthy i = true ->
  is_some (find_rect i (rects st)) = true ->
  option_map Rect.w (find_rect i (rects (onMouseMove e st)))
  = Some (Rmax 20 (Rect.w s + dir * (clientX e - sx))).
Proof.
  intros Hd Ht Hfound.
  rewrite (rects_resizeRectW st e i sx sy s dir Ht Hd); cbv zeta.
  rewrite find_rect_map by apply resize_one_id.
  destruct (find_rect i (rects st)) as [r|] eqn:Hf; [|discriminate].
  apply find_rect_In in Hf as [_ Hid].
  simpl; unfold resize_one.
  apply String.eqb_eq in Hid; rewrite Hid; reflexivity.
Qed.

(** C5. After pointer-down on a width handle of rectangle [i], the width
    written by a pointer move is [max(20, w0 + dir * (x - startX))] for the
    width [w0] the rectangle had at pointer-down and the pointer-down
    position [startX], whatever pointer moves came in between.  With origin
    (100,100), width 120 and direction +1, a move to (150,100) gives width
    170 and a following move to (130,100) gives width 150. *)
Theorem width_from_snapshot (st : State) (i : string) (r0 : Rect.t) :
  find_rect i (rects st) = Some r0 ->
  truthy i = true ->
  (forall dir e0 es e,
      option_map Rect.w
        (find_rect i
           (rects (onMouseMove e (moves es (onMouseDownRectW e0 i dir st)))))
      = Some (Rmax 20 (Rect.w r0 + dir * (clientX e - clientX e0))))
  /\
  (Rect.w r0 = 120 ->
   let st1 := onMouseDownRectW (mkMouseEvent 100 100) i 1 st in
   let st2 := onMouseMove (mkMouseEvent 150 100) st1 in
   let st3 := onMouseMove (mkMouseEvent 130 100) st2 in
   option_map Rect.w (find_rect i (rects st2)) = Some 170 /\
   option_map Rect.w (find_rect i (rects st3)) = Some 150).
Proof.
  intros Hf Ht.
  assert (Hgen : forall dir e0 es e,
      option_map Rect.w
        (find_rect i
           (rects (onMouseMove e (moves es (onMouseDownRectW e0 i dir st)))))
      = Some (Rmax 20 (Rect.w r0 + dir * (clientX e - clientX e0)))).
  { intros dir e0 es e.
    apply (width_after_move _ e i (clientX e0) (clientY e0) r0 dir).
    - rewrite dragRef_moves; simpl; rewrite Hf; reflexivity.
    - exact Ht.
    - rewrite find_rect_moves; simpl; rewrite Hf; reflexivity. }
  split; [exact Hgen|].
  intros Hw; cbv zeta; split.
  - pose proof (Hgen 1 (mkMouseEvent 100 100) [] (mkMouseEvent 150 100))
      as Hm.
    unfold moves in Hm; simpl fold_left in Hm; rewrite Hm.
    simpl; rewrite Hw; f_equal; rewrite Rmax_right by lra; lra.
  - pose proof (Hgen 1 (mkMouseEvent 100 100) [mkMouseEvent 150 100]
                     (mkMouseEvent 130 100)) as Hm.
    unfold moves in Hm; simpl fold_left in Hm; rewrite Hm.
    simpl; rewrite Hw; f_equal; rewrite Rmax_right by lra; lra.
Qed.

Lemma width_from_snapshot_witness :
  option_map Rect.w
    (find_rect "R1"
       (rects (onMouseMove (mkMouseEvent 130 100)
                 (onMouseMove (mkMouseEvent 150 100)
                    (onMouseDownRectW (mkMouseEvent 100 100) "R1" 1
                                      initialState)))))
  = Some 150.
Proof.
  apply (proj2 (width_from_snapshot initialState "R1"
                  (Rect.mk "R1" (W / 2 - 320 / 2.2) (H / 2 - 200 / 3)
                           120 60 (120 * 60) "#2563eb")
                  eq_refl eq_refl)
               eq_refl).
Defined.

(** ** Containment reconciliation *)

Lemma recenter_inside o r :
  insideEllipse (Rect.cx r) (Rect.cy r)
                (Oval.cx o) (Oval.cy o) (Oval.rx o) (Oval.ry o) = true ->
  recenter o r = r.
Proof. intros Hin; unfold recenter; rewrite Hin; reflexivity. Qed.

(** C6. Pointer-leave is handled as pointer-up.  Pointer-up ends the
    session, keeps the oval, and treats every rectangle on its own,
    whatever the containment test answers: a rectangle for which the test
    answers true is kept as it is; for any other, [cx] becomes [cx]
    restricted to [oval.cx - rx + w/2, oval.cx + rx - w/2] and [cy] becomes
    [cy] restricted to [oval.cy - ry + h/2, oval.cy + ry - h/2], with width,
    height, id, area and colour untouched.  When the test answers true for
    every rectangle, the rectangles are unchanged.  [onMouseUp] is the
    instance at the exact test [insideEllipse]. *)
Theorem reconciliation_on_session_end (test : Oval.t -> Rect.t -> bool)
  (st : State) :
  handle MouseLeave st = handle MouseUp st /\
  onMouseUp st = onMouseUp_by center_inside st /\
  dragRef (onMouseUp_by test st) = None /\
  oval (onMouseUp_by test st) = oval st /\
  (forall k r,
      nth_error (rects st) k = Some r ->
      exists r',
        nth_error (rects (onMouseUp_by test st)) k = Some r' /\
        (test (oval st) r = true -> r' = r) /\
        (test (oval st) r = false ->
         clamped_to (Rect.cx r)
                    (Oval.cx (oval st) - Oval.rx (oval st) + Rect.w r / 2)
                    (Oval.cx (oval st) + Oval.rx (oval st) - Rect.w r / 2)
                    (Rect.cx r') /\
         clamped_to (Rect.cy r)
                    (Oval.cy (oval st) - Oval.ry (oval st) + Rect.h r / 2)
                    (Oval.cy (oval st) + Oval.ry (oval st) - Rect.h r / 2)
                    (Rect.cy r') /\
         Rect.w r' = Rect.w r /\ Rect.h r' = Rect.h r /\
         same_identity r r')) /\
  ((forall r, In r (rects st) -> test (oval st) r = true) ->
   rects (onMouseUp_by test st) = rects st).
Proof.
  split; [reflexivity|split; [reflexivity|split; [reflexivity|]]].
  split; [reflexivity|split].
  - intros k r Hk.
    exists (recenter_by (test (oval st) r) (oval st) r); split.
    + simpl; rewrite nth_error_map, Hk; reflexivity.
    + split; intros Ht; rewrite Ht; simpl; [reflexivity|].
      split; [apply clamp_clamped_to|].
      split; [apply clamp_clamped_to|].
      repeat split.
  - intros Hall; simpl; apply map_fixed.
    intros r Hr; rewrite (Hall r Hr); reflexivity.
Qed.

Lemma initial_centers_inside r :
  In r (rects initialState) ->
  insideEllipse (Rect.cx r) (Rect.cy r)
                (Oval.cx (oval initialState)) (Oval.cy (oval initialState))
                (Oval.rx (oval initialState)) (Oval.ry (oval initialState))
  = true.
Proof.
  simpl; intros [<-|[<-|[<-|[<-|[]]]]]; unfold insideEllipse; simpl;
    destruct (Rle_dec _ _) as [|Hn]; try reflexivity;
    exfalso; apply Hn; unfold W, H; lra.
Qed.

Lemma reconciliation_on_session_end_witness :
  rects (onMouseUp initialState) = rects initialState /\
  exists r',
    nth_error
      (rects (onMouseUp_by (fun _ _ => false)
                (mkState [Rect.mk "R1" 530 400 120 60 7200 "#2563eb"]
                         (Oval.mk 480 280 130 130) None))) 0
    = Some r' /\
    Rect.cx r' = 530 /\ Rect.cy r' = 380.
Proof.
  split.
  - exact (proj2 (proj2 (proj2 (proj2 (proj2
             (reconciliation_on_session_end center_inside initialState)))))
             initial_centers_inside).
  - destruct (proj1 (proj2 (proj2 (proj2 (proj2
                (reconciliation_on_session_end
                   (fun _ _ => false)
                   (mkState [Rect.mk "R1" 530 400 120 60 7200 "#2563eb"]
                            (Oval.mk 480 280 130 130) None))))))
                0%nat (Rect.mk "R1" 530 400 120 60 7200 "#2563eb") eq_refl)
      as (r' & Hk & _ & Hout).
    destruct (Hout eq_refl)
      as ((_ & _ & Hx & _) & (_ & _ & _ & _ & Hy & _) & _).
    exists r'; split; [exact Hk|].
    simpl in Hx, Hy; split; [apply Hx|rewrite Hy]; lra.
Defined.

(** A rectangle whose center lies outside the oval is pulled back per axis. *)
Example reconciliation_pulls_back :
  let r := Rect.mk "R1" 900 280 120 60 7200 "#2563eb" in
  rects (onMouseUp (mkState [r] initialOval None))
  = [Rect.mk "R1" 740 280 120 60 7200 "#2563eb"].
Proof.
  cbv zeta; simpl; unfold recenter, insideEllipse; simpl.
  destruct (Rle_dec _ _) as [Hle|_].
  - exfalso; unfold W, H in Hle; lra.
  - unfold with_center; simpl; f_equal; f_equal; case_clamp.
Qed.

(** ** Rectangle move sessions *)

Lemma rects_moveRect st e i sx sy s :
  dragRef st = Some (moveRect i sx sy (Some s)) ->
  truthy i = true ->
  rects (onMouseMove e st)
  = map (move_one i (clientX e - sx) (clientY e - sy)) (rects st).
Proof.
  intros Hd Ht; unfold onMouseMove; rewrite Hd, Ht; reflexivity.
Qed.

(** The first pointer move after pointer-down starts from the snapshot:
    the rectangles have not changed since it was taken. *)
Lemma first_move_from_snapshot st e0 e i r0 :
  find_rect i (rects st) = Some r0 ->
  truthy i = true ->
  find_rect i (rects (onMouseMove e (onMouseDownRectMove e0 i st)))
  = Some (with_center r0
            (clamp (Rect.cx r0 + (clientX e - clientX e0)) 0 W)
            (clamp (Rect.cy r0 + (clientY e - clientY e0)) 0 H)).
Proof.
  intros Hf Ht.
  rewrite (rects_moveRect _ e i (clientX e0) (clientY e0) r0)
    by (simpl; rewrite ?Hf; auto).
  rewrite find_rect_map by (intros r; apply same_identity_move).
  simpl; rewrite Hf; simpl; unfold move_one.
  apply find_rect_In in Hf as [_ Hid].
  apply String.eqb_eq in Hid; rewrite Hid; reflexivity.
Qed.

(** C2, at the failing input.  Rectangle R1 is grabbed at (100,100) and the
    pointer moves to (110,100) and then to (120,100).  The session still
    holds the snapshot [s] taken at pointer-down, but the center written by
    the second move is [s.cx + 30]: the move added its delta to the center
    left by the first move, not to the snapshot's, for which
    [clamp(s.cx + 20, 0, W) = s.cx + 20]. *)
Theorem move_adds_delta_to_live_center :
  let st1 := onMouseDownRectMove (mkMouseEvent 100 100) "R1" initialState in
  let st3 := onMouseMove (mkMouseEvent 120 100)
               (onMouseMove (mkMouseEvent 110 100) st1) in
  exists s r,
    dragRef st3 = Some (moveRect "R1" 100 100 (Some s)) /\
    find_rect "R1" (rects initialState) = Some s /\
    find_rect "R1" (rects st3) = Some r /\
    Rect.cx r = Rect.cx s + 30 /\
    clamp (Rect.cx s + (120 - 100)) 0 W = Rect.cx s + 20 /\
    Rect.cx r <> clamp (Rect.cx s + (120 - 100)) 0 W.
Proof.
  cbv zeta; eexists; eexists.
  split; [reflexivity|split; [reflexivity|split; [reflexivity|]]].
  simpl; split; [|split]; case_clamp.
Qed.

(** C3, at the failing input.  Rectangle R1 is grabbed at (100,100).  One
    pointer move to (110,100) puts its center at [cx0 + 10]; two pointer
    moves to that same position put it at [cx0 + 20]. *)
Theorem move_twice_differs_from_once :
  let st1 := onMouseDownRectMove (mkMouseEvent 100 100) "R1" initialState in
  let once := onMouseMove (mkMouseEvent 110 100) st1 in
  let twice := onMouseMove (mkMouseEvent 110 100) once in
  let cx0 := W / 2 - 320 / 2.2 in
  option_map Rect.cx (find_rect "R1" (rects st1)) = Some cx0 /\
  option_map Rect.cx (find_rect "R1" (rects once)) = Some (cx0 + 10) /\
  option_map Rect.cx (find_rect "R1" (rects twice)) = Some (cx0 + 20) /\
  option_map Rect.cx (find_rect "R1" (rects twice))
  <> option_map Rect.cx (find_rect "R1" (rects once)).
Proof.
  cbv zeta; simpl.
  assert (H1 : clamp (W / 2 - 320 / 2.2 + (110 - 100)) 0 W
               = W / 2 - 320 / 2.2 + 10) by case_clamp.
  rewrite H1.
  assert (H2 : clamp (W / 2 - 320 / 2.2 + 10 + (110 - 100)) 0 W
               = W / 2 - 320 / 2.2 + 20) by case_clamp.
  rewrite H2.
  repeat split; intros Heq; injection Heq; lra.
Qed.

(** ** End-to-end scenario *)

Lemma find_R1_initial :
  find_rect "R1" initialRects
  = Some (Rect.mk "R1" (W / 2 - 320 / 2.2) (H / 2 - 200 / 3)
                  120 60 (120 * 60) "#2563eb").
Proof. reflexivity. Qed.

(** Dragging the right width handle of R1 by 50 gives width 170 and height
    7200/170; releasing the pointer leaves its center where it was. *)
Example end_to_end_scenario :
  let st := run [MouseDownRectW (mkMouseEvent 100 100) "R1" 1;
                 MouseMove (mkMouseEvent 150 100);
                 MouseUp] initialState in
  dragRef st = None /\
  find_rect "R1" (rects st)
  = Some (Rect.mk "R1" (W / 2 - 320 / 2.2) (H / 2 - 200 / 3)
                  170 (7200 / 170) 7200 "#2563eb").
Proof.
  cbv zeta; split; [reflexivity|].
  unfold run; cbn [fold_left handle].
  set (st1 := onMouseDownRectW (mkMouseEvent 100 100) "R1" 1 initialState).
  change (rects (onMouseUp (onMouseMove (mkMouseEvent 150 100) st1)))
    with (map (recenter initialOval)
              (rects (onMouseMove (mkMouseEvent 150 100) st1))).
  rewrite find_rect_map by (intros r; apply same_identity_recenter).
  rewrite (rects_resizeRectW st1 (mkMouseEvent 150 100) "R1" 100 100
             (Rect.mk "R1" (W / 2 - 320 / 2.2) (H / 2 - 200 / 3)
                      120 60 (120 * 60) "#2563eb") 1 eq_refl eq_refl).
  cbv zeta; rewrite find_rect_map by apply resize_one_id.
  change (rects st1) with initialRects; rewrite find_R1_initial.
  cbn [option_map Rect.w Rect.area clientX].
  replace (Rmax 20 (120 + 1 * (150 - 100))) with 170
    by (rewrite Rmax_right; lra).
  replace (clamp (120 * 60 / 170) 10 600) with (7200 / 170)
    by (rewrite clamp_inside; lra).
  unfold resize_one; cbn [Rect.id String.eqb Ascii.eqb Bool.eqb with_size].
  unfold recenter, insideEllipse; cbn.
  destruct (Rle_dec _ _) as [_|Hn].
  - unfold with_size; cbn; do 2 f_equal; lra.
  - exfalso; apply Hn; unfold W, H; lra.
Qed.

(** * Further properties of the code *)

(** ** [clamp] *)

(** X1. For bounds in order, [clamp] returns a value within them: [v]
    itself when it lies within, the lower bound when [v] is below and the
    upper bound when [v] is above. *)
Theorem clamp_ordered_bounds (v lo hi : R) :
  lo <= hi ->
  lo <= clamp v lo hi <= hi /\
  (lo <= v <= hi -> clamp v lo hi = v) /\
  (v <= lo -> clamp v lo hi = lo) /\
  (hi <= v -> clamp v lo hi = hi).
Proof. intros Hb; repeat split; try intros Hv; case_clamp. Qed.

Lemma clamp_ordered_bounds_witness : clamp 1000 0 960 = 960.
Proof.
  apply (proj2 (proj2 (proj2 (clamp_ordered_bounds 1000 0 960 ltac:(lra))))).
  lra.
Defined.

(** X2. For bounds out of order ([max < min]), [clamp] returns the lower
    bound [min], whatever [v] is. *)
Theorem clamp_inverted_bounds (v lo hi : R) :
  hi < lo -> clamp v lo hi = lo.
Proof. intros Hb; case_clamp. Qed.

Lemma clamp_inverted_bounds_witness : clamp 5 10 0 = 10.
Proof. apply clamp_inverted_bounds; lra. Defined.

(** X3. [clamp] is monotone in its first argument. *)
Theorem clamp_monotone (v v' lo hi : R) :
  v <= v' -> clamp v lo hi <= clamp v' lo hi.
Proof. intros Hv; case_clamp. Qed.

Lemma clamp_monotone_witness : clamp 3 0 10 <= clamp 7 0 10.
Proof. apply clamp_monotone; lra. Defined.

Lemma clamp_idem v lo hi : clamp (clamp v lo hi) lo hi = clamp v lo hi.
Proof. case_clamp. Qed.

(** ** [insideEllipse] *)

Lemma quotient_le_1 n d : 0 < d -> (n / d <= 1 <-> n <= d).
Proof.
  intros Hd.
  assert (Hq : n / d * d = n) by (field; lra).
  split; intros Hle.
  - rewrite <- Hq; nra.
  - apply Rmult_le_reg_r with d; [exact Hd|]; lra.
Qed.

Lemma insideEllipse_true_iff x y cx cy rx ry :
  0 < rx -> 0 < ry ->
  (insideEllipse x y cx cy rx ry = true <->
   (x - cx) * (x - cx) * (ry * ry) + (y - cy) * (y - cy) * (rx * rx)
   <= rx * rx * (ry * ry)).
Proof.
  intros Hx Hy; unfold insideEllipse.
  assert (Hd : 0 < rx * rx * (ry * ry))
    by (repeat apply Rmult_lt_0_compat; assumption).
  assert (He : (x - cx) / rx * ((x - cx) / rx)
               + (y - cy) / ry * ((y - cy) / ry)
               = ((x - cx) * (x - cx) * (ry * ry)
                  + (y - cy) * (y - cy) * (rx * rx))
                 / (rx * rx * (ry * ry)))
    by (field; lra).
  rewrite He.
  destruct (Rle_dec _ 1) as [Hle|Hnle].
  - split; [intros _|reflexivity].
    apply (quotient_le_1 _ _ Hd); exact Hle.
  - split; [discriminate|].
    intros Hle; exfalso; apply Hnle.
    apply (quotient_le_1 _ _ Hd); exact Hle.
Qed.

(** X5. For positive radii, a point that passes [insideEllipse] lies in the
    bounding box of the ellipse. *)
Theorem insideEllipse_in_bounding_box (x y cx cy rx ry : R) :
  0 < rx -> 0 < ry ->
  insideEllipse x y cx cy rx ry = true ->
  cx - rx <= x <= cx + rx /\ cy - ry <= y <= cy + ry.
Proof.
  intros Hx Hy Hin.
  apply (insideEllipse_true_iff _ _ _ _ _ _ Hx Hy) in Hin.
  assert (Ha : (x - cx) * (x - cx) <= rx * rx).
  { apply Rmult_le_reg_r with (ry * ry); [apply Rmult_lt_0_compat; lra|].
    pose proof (Rle_0_sqr (y - cy)) as Hs; unfold Rsqr in Hs.
    pose proof (Rle_0_sqr rx) as Hr; unfold Rsqr in Hr.
    nra. }
  assert (Hb : (y - cy) * (y - cy) <= ry * ry).
  { apply Rmult_le_reg_r with (rx * rx); [apply Rmult_lt_0_compat; lra|].
    pose proof (Rle_0_sqr (x - cx)) as Hs; unfold Rsqr in Hs.
    pose proof (Rle_0_sqr ry) as Hr; unfold Rsqr in Hr.
    nra. }
  split; split; nra.
Qed.

Lemma insideEllipse_in_bounding_box_witness :
  480 - 320 <= 800 <= 480 + 320 /\ 280 - 200 <= 280 <= 280 + 200.
Proof.
  apply (insideEllipse_in_bounding_box 800 280 480 280 320 200);
    [lra|lra|].
  apply (proj2 (insideEllipse_true_iff 800 280 480 280 320 200
                  ltac:(lra) ltac:(lra))).
  lra.
Defined.

(** ** The initial state *)

(** X6. The component starts idle, with radii within their bounds and four
    rectangles R1 to R4 of width 120, height 60 and area 7200 that obey the
    area law and have their centers inside the oval. *)
Theorem initial_state_invariants :
  dragRef initialState = None /\
  radii_in_bounds (oval initialState) /\
  map Rect.id (rects initialState) = ["R1"; "R2"; "R3"; "R4"]%string /\
  wf initialState /\
  Forall (fun r => Rect.w r = 120 /\ Rect.h r = 60 /\ Rect.area r = 7200 /\
                   area_law r /\
                   center_inside (oval initialState) r = true)
         (rects initialState).
Proof.
  split; [reflexivity|].
  split; [exact radii_in_bounds_initial|].
  split; [reflexivity|].
  split; [exact wf_initialState|].
  apply Forall_forall; intros r Hr.
  pose proof (initial_centers_inside r Hr) as Hin.
  simpl in Hr; destruct Hr as [<-|[<-|[<-|[<-|[]]]]];
    unfold area_law; simpl; (repeat split; try lra); exact Hin.
Qed.

(** ** Outside a session *)

(** X8. While no session is active, pointer moves change nothing: any run
    of them leaves the state as it is. *)
Theorem moves_when_idle (st : State) (es : list MouseEvent) :
  dragRef st = None -> moves es st = st.
Proof.
  intros Hd; unfold moves; induction es as [|e es IH]; simpl; auto.
  unfold onMouseMove at 2; rewrite Hd; exact IH.
Qed.

Lemma moves_when_idle_witness :
  moves [mkMouseEvent 10 20; mkMouseEvent 300 400] initialState
  = initialState.
Proof. apply moves_when_idle; reflexivity. Defined.

(** ** Pointer-up *)

Lemma recenter_idem o r : recenter o (recenter o r) = recenter o r.
Proof.
  destruct (insideEllipse (Rect.cx r) (Rect.cy r)
                          (Oval.cx o) (Oval.cy o) (Oval.rx o) (Oval.ry o))
    eqn:Hin.
  - rewrite (recenter_inside o r Hin); apply recenter_inside; exact Hin.
  - assert (Hr : recenter o r
                 = with_center r
                     (clamp (Rect.cx r) (Oval.cx o - Oval.rx o + Rect.w r / 2)
                            (Oval.cx o + Oval.rx o - Rect.w r / 2))
                     (clamp (Rect.cy r) (Oval.cy o - Oval.ry o + Rect.h r / 2)
                            (Oval.cy o + Oval.ry o - Rect.h r / 2)))
      by (unfold recenter; rewrite Hin; reflexivity).
    rewrite Hr; clear Hr Hin; unfold recenter; simpl.
    destruct (insideEllipse _ _ _ _ _ _); [reflexivity|].
    unfold with_center; simpl; rewrite !clamp_idem; reflexivity.
Qed.

(** X9. Ending a session twice is the same as ending it once: a
    pointer-leave after a pointer-up changes nothing. *)
Theorem onMouseUp_idempotent (st : State) :
  onMouseUp (onMouseUp st) = onMouseUp st.
Proof.
  unfold onMouseUp, setRects, setDrag; simpl; f_equal.
  rewrite map_map; apply map_ext; intros r; apply recenter_idem.
Qed.

(** X10. A rectangle whose center fails the containment test and that is
    no wider and no taller than the oval ends, after pointer-up, within
    the bounding box of the oval: its left and right edges lie in
    [cx - rx, cx + rx] and its top and bottom edges in [cy - ry, cy + ry]. *)
Theorem pulled_back_into_bounding_box (st : State) (k : nat) (r : Rect.t) :
  nth_error (rects st) k = Some r ->
  center_inside (oval st) r = false ->
  Rect.w r <= 2 * Oval.rx (oval st) ->
  Rect.h r <= 2 * Oval.ry (oval st) ->
  exists r',
    nth_error (rects (onMouseUp st)) k = Some r' /\
    Rect.w r' = Rect.w r /\ Rect.h r' = Rect.h r /\
    Oval.cx (oval st) - Oval.rx (oval st) <= Rect.cx r' - Rect.w r' / 2 /\
    Rect.cx r' + Rect.w r' / 2 <= Oval.cx (oval st) + Oval.rx (oval st) /\
    Oval.cy (oval st) - Oval.ry (oval st) <= Rect.cy r' - Rect.h r' / 2 /\
    Rect.cy r' + Rect.h r' / 2 <= Oval.cy (oval st) + Oval.ry (oval st).
Proof.
  unfold center_inside; intros Hk Hout Hw Hh.
  exists (recenter (oval st) r); split.
  - simpl; rewrite nth_error_map, Hk; reflexivity.
  - unfold recenter; rewrite Hout; simpl.
    split; [reflexivity|split; [reflexivity|]].
    pose proof (clamp_bounds (Rect.cx r)
                  (Oval.cx (oval st) - Oval.rx (oval st) + Rect.w r / 2)
                  (Oval.cx (oval st) + Oval.rx (oval st) - Rect.w r / 2)
                  ltac:(lra)) as Hx.
    pose proof (clamp_bounds (Rect.cy r)
                  (Oval.cy (oval st) - Oval.ry (oval st) + Rect.h r / 2)
                  (Oval.cy (oval st) + Oval.ry (oval st) - Rect.h r / 2)
                  ltac:(lra)) as Hy.
    repeat split; lra.
Qed.

Lemma pulled_back_into_bounding_box_witness :
  exists r',
    nth_error
      (rects (onMouseUp
                (mkState [Rect.mk "R1" 900 280 120 60 7200 "#2563eb"]
                         initialOval None))) 0
    = Some r' /\
    Rect.cx r' + Rect.w r' / 2 <= Oval.cx initialOval + Oval.rx initialOval.
Proof.
  destruct (pulled_back_into_bounding_box
              (mkState [Rect.mk "R1" 900 280 120 60 7200 "#2563eb"]
                       initialOval None)
              0 (Rect.mk "R1" 900 280 120 60 7200 "#2563eb") eq_refl)
    as (r' & Hk & _ & _ & _ & Hr & _).
  - unfold center_inside, insideEllipse; simpl.
    destruct (Rle_dec _ _) as [Hle|_]; [|reflexivity].
    exfalso; unfold W, H in Hle; lra.
  - simpl; lra.
  - simpl; lra.
  - exists r'; split; assumption.
Defined.

(** X11. Reconciliation is a pull towards the bounding box, not into the
    ellipse: a rectangle of at most half the radii in size whose center
    lies beyond a corner of the bounding box still fails the containment
    test after pointer-up. *)
Theorem pulled_back_center_may_stay_outside (st : State) (k : nat)
  (r : Rect.t) :
  nth_error (rects st) k = Some r ->
  0 < Oval.rx (oval st) -> 0 < Oval.ry (oval st) ->
  0 <= Rect.w r <= Oval.rx (oval st) / 2 ->
  0 <= Rect.h r <= Oval.ry (oval st) / 2 ->
  Oval.cx (oval st) + Oval.rx (oval st) <= Rect.cx r ->
  Oval.cy (oval st) + Oval.ry (oval st) <= Rect.cy r ->
  exists r',
    nth_error (rects (onMouseUp st)) k = Some r' /\
    Rect.cx r' = Oval.cx (oval st) + Oval.rx (oval st) - Rect.w r / 2 /\
    Rect.cy r' = Oval.cy (oval st) + Oval.ry (oval st) - Rect.h r / 2 /\
    center_inside (oval st) r' = false.
Proof.
  intros Hk Hrx Hry Hw Hh Hx Hy.
  set (o := oval st) in *.
  assert (Hout : forall x y,
             Oval.cx o + 3 / 4 * Oval.rx o <= x ->
             Oval.cy o + 3 / 4 * Oval.ry o <= y ->
             insideEllipse x y (Oval.cx o) (Oval.cy o) (Oval.rx o) (Oval.ry o)
             = false).
  { intros x y Hx' Hy'.
    destruct (insideEllipse x y _ _ _ _) eqn:Hin; [|reflexivity].
    apply (insideEllipse_true_iff _ _ _ _ _ _ Hrx Hry) in Hin.
    exfalso.
    assert (Ha : 9 / 16 * (Oval.rx o * Oval.rx o)
                 <= (x - Oval.cx o) * (x - Oval.cx o)) by nra.
    assert (Hb : 9 / 16 * (Oval.ry o * Oval.ry o)
                 <= (y - Oval.cy o) * (y - Oval.cy o)) by nra.
    assert (Hp : 0 < Oval.rx o * Oval.rx o * (Oval.ry o * Oval.ry o))
      by (repeat apply Rmult_lt_0_compat; assumption).
    assert (Hrr : 0 < Oval.rx o * Oval.rx o) by nra.
    assert (Hss : 0 < Oval.ry o * Oval.ry o) by nra.
    nra. }
  exists (recenter o r); split.
  - simpl; rewrite nth_error_map, Hk; reflexivity.
  - unfold recenter. rewrite (Hout (Rect.cx r) (Rect.cy r)) by lra.
    unfold center_inside; simpl.
    assert (Hnx : clamp (Rect.cx r) (Oval.cx o - Oval.rx o + Rect.w r / 2)
                        (Oval.cx o + Oval.rx o - Rect.w r / 2)
                  = Oval.cx o + Oval.rx o - Rect.w r / 2) by case_clamp.
    assert (Hny : clamp (Rect.cy r) (Oval.cy o - Oval.ry o + Rect.h r / 2)
                        (Oval.cy o + Oval.ry o - Rect.h r / 2)
                  = Oval.cy o + Oval.ry o - Rect.h r / 2) by case_clamp.
    rewrite Hnx, Hny.
    split; [reflexivity|split; [reflexivity|]].
    apply Hout; lra.
Qed.

Lemma pulled_back_center_may_stay_outside_witness :
  exists r',
    nth_error
      (rects (onMouseUp
                (mkState [Rect.mk "R1" 900 500 120 60 7200 "#2563eb"]
                         initialOval None))) 0
    = Some r' /\
    center_inside initialOval r' = false.
Proof.
  destruct (pulled_back_center_may_stay_outside
              (mkState [Rect.mk "R1" 900 500 120 60 7200 "#2563eb"]
                       initialOval None)
              0 (Rect.mk "R1" 900 500 120 60 7200 "#2563eb") eq_refl)
    as (r' & Hk & _ & _ & Hout); simpl; unfold W, H; try lra.
  exists r'; split; assumption.
Defined.

(** ** Pointer moves in a rectangle move session *)

Lemma move_one_target i dx dy l r' :
  In r' (map (move_one i dx dy) l) -> Rect.id r' = i ->
  exists r, In r l /\ Rect.id r = i /\
            r' = with_center r (clamp (Rect.cx r + dx) 0 W)
                               (clamp (Rect.cy r + dy) 0 H).
Proof.
  intros Hin Hid; apply in_map_iff in Hin as (r & <- & Hr).
  exists r; split; [exact Hr|].
  unfold move_one in *.
  destruct (String.eqb (Rect.id r) i) eqn:Heq; simpl in *.
  - apply String.eqb_eq in Heq; auto.
  - apply String.eqb_neq in Heq; contradiction.
Qed.

(** X12. A pointer move of a rectangle move session leaves the center of
    the moved rectangle within the canvas, [0 <= cx <= 960] and
    [0 <= cy <= 560], wherever the pointer is. *)
Theorem moved_center_within_canvas (st : State) (e : MouseEvent)
  (i : string) (sx sy : R) (s r' : Rect.t) :
  dragRef st = Some (moveRect i sx sy (Some s)) ->
  truthy i = true ->
  In r' (rects (onMouseMove e st)) ->
  Rect.id r' = i ->
  0 <= Rect.cx r' <= 960 /\ 0 <= Rect.cy r' <= 560.
Proof.
  intros Hd Ht Hin Hid.
  rewrite (rects_moveRect st e i sx sy s Hd Ht) in Hin.
  apply move_one_target in Hin as (r & _ & _ & ->); [|exact Hid].
  simpl; split; apply clamp_bounds; unfold W, H; lra.
Qed.

Lemma moved_center_within_canvas_witness :
  exists r',
    In r' (rects (onMouseMove (mkMouseEvent 5000 (-5000))
                    (onMouseDownRectMove (mkMouseEvent 100 100) "R1"
                                         initialState))) /\
    Rect.id r' = "R1"%string /\
    0 <= Rect.cx r' <= 960 /\ 0 <= Rect.cy r' <= 560.
Proof.
  eexists; split; [left; reflexivity|split; [reflexivity|]].
  eapply (moved_center_within_canvas
            (onMouseDownRectMove (mkMouseEvent 100 100) "R1" initialState)
            (mkMouseEvent 5000 (-5000)) "R1" 100 100).
  - reflexivity.
  - reflexivity.
  - left; reflexivity.
  - reflexivity.
Defined.

(** X13. In a rectangle move session, a pointer move puts the center of
    the moved rectangle at its current center plus the pointer's offset
    from the pointer-down position, each coordinate restricted to the
    canvas ([0, 960] and [0, 560]); width, height, id, area and colour are
    kept, and the snapshot held by the session plays no part. *)
Theorem move_displaces_current_center (st : State) (e : MouseEvent)
  (i : string) (sx sy : R) (s r : Rect.t) :
  dragRef st = Some (moveRect i sx sy (Some s)) ->
  truthy i = true ->
  find_rect i (rects st) = Some r ->
  exists r',
    find_rect i (rects (onMouseMove e st)) = Some r' /\
    clamped_to (Rect.cx r + (clientX e - sx)) 0 960 (Rect.cx r') /\
    clamped_to (Rect.cy r + (clientY e - sy)) 0 560 (Rect.cy r') /\
    Rect.w r' = Rect.w r /\ Rect.h r' = Rect.h r /\
    same_identity r r'.
Proof.
  intros Hd Ht Hf.
  exists (with_center r (clamp (Rect.cx r + (clientX e - sx)) 0 W)
                        (clamp (Rect.cy r + (clientY e - sy)) 0 H)).
  split.
  - rewrite (rects_moveRect st e i sx sy s Hd Ht).
    rewrite find_rect_map by (intros x; apply same_identity_move).
    rewrite Hf; simpl; unfold move_one.
    apply find_rect_In in Hf as [_ Hid].
    apply String.eqb_eq in Hid; rewrite Hid; reflexivity.
  - simpl.
    split; [exact (clamp_clamped_to _ 0 W)|].
    split; [exact (clamp_clamped_to _ 0 H)|].
    repeat split.
Qed.

Lemma move_displaces_current_center_witness :
  exists r',
    find_rect "R1"
      (rects (onMouseMove (mkMouseEvent 110 100)
                (mkState [Rect.mk "R1" 300 200 120 60 7200 "#2563eb"]
                         initialOval
                         (Some (moveRect "R1" 100 100
                                  (Some (Rect.mk "R1" 250 200 120 60 7200
                                                 "#2563eb")))))))
    = Some r' /\
    Rect.cx r' = 310 /\ Rect.cy r' = 200.
Proof.
  destruct (move_displaces_current_center
              (mkState [Rect.mk "R1" 300 200 120 60 7200 "#2563eb"]
                       initialOval
                       (Some (moveRect "R1" 100 100
                                (Some (Rect.mk "R1" 250 200 120 60 7200
                                               "#2563eb")))))
              (mkMouseEvent 110 100) "R1" 100 100
              (Rect.mk "R1" 250 200 120 60 7200 "#2563eb")
              (Rect.mk "R1" 300 200 120 60 7200 "#2563eb")
              eq_refl eq_refl eq_refl)
    as (r' & Hf & (_ & _ & Hx & _) & (_ & _ & Hy & _) & _).
  exists r'; split; [exact Hf|].
  simpl in Hx, Hy; split; [rewrite Hx|rewrite Hy]; lra.
Defined.

(** ** What a pointer move leaves alone *)

Lemma nth_error_map_fixed {A : Type} (f : A -> A) (l : list A) k a :
  nth_error l k = Some a -> f a = a -> nth_error (map f l) k = Some a.
Proof. intros Hk Hf; rewrite nth_error_map, Hk; simpl; rewrite Hf; auto. Qed.

(** X14. A pointer move leaves every rectangle whose id is not the
    session's as it is and where it is in the list; in an oval session
    that is every rectangle. *)
Theorem move_keeps_other_rects (st : State) (e : MouseEvent) (d : Drag)
  (k : nat) (r : Rect.t) :
  dragRef st = Some d ->
  drag_id d <> Some (Rect.id r) ->
  nth_error (rects st) k = Some r ->
  nth_error (rects (onMouseMove e st)) k = Some r.
Proof.
  intros Hd Hne Hk; unfold onMouseMove; rewrite Hd.
  assert (Hid : forall i, drag_id d = Some i ->
                          String.eqb (Rect.id r) i = false).
  { intros i Hi; apply String.eqb_neq; intros <-; contradiction. }
  destruct d as [i ? ? o|i ? ? [s|] ?|i ? ? [s|] ?|? ? ? ?|? ? ? ?];
    simpl; auto.
  - destruct (truthy i && is_some o); simpl; auto.
    apply nth_error_map_fixed; auto.
    unfold move_one; rewrite (Hid i eq_refl); reflexivity.
  - destruct (truthy i); simpl; auto.
    apply nth_error_map_fixed; auto.
    unfold resize_one; rewrite (Hid i eq_refl); reflexivity.
  - destruct (truthy i); simpl; auto.
    apply nth_error_map_fixed; auto.
    unfold resize_one; rewrite (Hid i eq_refl); reflexivity.
Qed.

Lemma move_keeps_other_rects_witness :
  nth_error
    (rects (onMouseMove (mkMouseEvent 150 100)
              (onMouseDownRectW (mkMouseEvent 100 100) "R1" 1 initialState)))
    1
  = Some (Rect.mk "R2" (W / 2 + 320 / 2.2) (H / 2 - 200 / 3)
                  120 60 (120 * 60) "#16a34a").
Proof.
  eapply (move_keeps_other_rects
            (onMouseDownRectW (mkMouseEvent 100 100) "R1" 1 initialState)).
  - reflexivity.
  - simpl; discriminate.
  - reflexivity.
Defined.

(** X15. A pointer move never touches the id, area or colour of a
    rectangle; in a rectangle move session it keeps every width and
    height, and in every other session it keeps every center. *)
Theorem move_changes_one_aspect (st : State) (e : MouseEvent) :
  Forall2 (fun r r' =>
             same_identity r r' /\
             if move_session st
             then Rect.w r' = Rect.w r /\ Rect.h r' = Rect.h r
             else Rect.cx r' = Rect.cx r /\ Rect.cy r' = Rect.cy r)
          (rects st) (rects (onMouseMove e st)).
Proof.
  assert (Hrefl : forall b (l : list Rect.t),
             Forall2 (fun r r' =>
                        same_identity r r' /\
                        if b : bool
                        then Rect.w r' = Rect.w r /\ Rect.h r' = Rect.h r
                        else Rect.cx r' = Rect.cx r /\ Rect.cy r' = Rect.cy r)
                     l l).
  { intros b l; induction l; constructor; auto.
    split; [apply same_identity_refl|destruct b; auto]. }
  unfold move_session, onMouseMove.
  destruct (dragRef st) as [[i ? ? o|i ? ? [s|] ?|i ? ? [s|] ?|? ? ? ?|? ? ? ?]|];
    simpl; try apply (Hrefl false); try apply (Hrefl true).
  - destruct (truthy i && is_some o); simpl; [|apply (Hrefl true)].
    apply Forall2_map_self; intros r; split; [apply same_identity_move|].
    unfold move_one; destruct (negb _); auto.
  - destruct (truthy i); simpl; [|apply (Hrefl false)].
    apply Forall2_map_self; intros r; split; [apply same_identity_resize|].
    unfold resize_one; destruct (String.eqb _ _); auto.
  - destruct (truthy i); simpl; [|apply (Hrefl false)].
    apply Forall2_map_self; intros r; split; [apply same_identity_resize|].
    unfold resize_one; destruct (String.eqb _ _); auto.
Qed.

(** ** Bounds and the area law in resize sessions *)

(** X16. After a pointer move of a width session the resized rectangle has
    width at least 20 and height within [10, 600]; after one of a height
    session it has height at least 10 and width within [20, 900]. *)
Theorem resized_dimensions_bounded (st : State) (e : MouseEvent)
  (i : string) (sx sy : R) (s : Rect.t) (dir : R) (r' : Rect.t) :
  truthy i = true ->
  In r' (rects (onMouseMove e st)) ->
  Rect.id r' = i ->
  (dragRef st = Some (resizeRectW i sx sy (Some s) dir) ->
   20 <= Rect.w r' /\ 10 <= Rect.h r' <= 600)
  /\
  (dragRef st = Some (resizeRectH i sx sy (Some s) dir) ->
   10 <= Rect.h r' /\ 20 <= Rect.w r' <= 900).
Proof.
  intros Ht Hin Hid; split; intros Hd.
  - rewrite (rects_resizeRectW st e i sx sy s dir Ht Hd) in Hin.
    cbv zeta in Hin.
    apply resize_one_target in Hin as (r & _ & _ & ->); [|exact Hid].
    simpl; split; [apply Rmax_l|apply clamp_bounds; lra].
  - rewrite (rects_resizeRectH st e i sx sy s dir Ht Hd) in Hin.
    cbv zeta in Hin.
    apply resize_one_target in Hin as (r & _ & _ & ->); [|exact Hid].
    simpl; split; [apply Rmax_l|apply clamp_bounds; lra].
Qed.

Lemma resized_dimensions_bounded_witness :
  exists r',
    In r' (rects (onMouseMove (mkMouseEvent 5000 100)
                    (onMouseDownRectW (mkMouseEvent 100 100) "R1" 1
                                      initialState))) /\
    20 <= Rect.w r' /\ 10 <= Rect.h r' <= 600.
Proof.
  eexists; split; [left; reflexivity|].
  eapply (proj1 (resized_dimensions_bounded
                   (onMouseDownRectW (mkMouseEvent 100 100) "R1" 1
                                     initialState)
                   (mkMouseEvent 5000 100) "R1" 100 100 _ 1 _
                   eq_refl (or_introl eq_refl) eq_refl)).
  reflexivity.
Defined.

(** X17. In a height session, a pointer move that drives
    [snapshot.h + dir * dy] below 10 leaves the resized rectangle with
    height exactly 10 and with width [area / 10] restricted to [20, 900]:
    [max(20, min(900, area / 10))], which lies in [20, 900], is [area / 10]
    when that lies within, 20 when it is below and 900 when it is above. *)
Theorem height_floor (st : State) (e : MouseEvent) (i : string)
  (sx sy : R) (s : Rect.t) (dir : R) (r' : Rect.t) :
  dragRef st = Some (resizeRectH i sx sy (Some s) dir) ->
  truthy i = true ->
  Rect.h s + dir * (clientY e - sy) < 10 ->
  In r' (rects (onMouseMove e st)) ->
  Rect.id r' = i ->
  Rect.h r' = 10 /\
  clamped_to (Rect.area s / 10) 20 900 (Rect.w r') /\
  20 <= Rect.w r' <= 900.
Proof.
  intros Hd Ht Hlow Hin Hid.
  rewrite (rects_resizeRectH st e i sx sy s dir Ht Hd) in Hin.
  cbv zeta in Hin.
  rewrite Rmax_left in Hin by lra.
  apply resize_one_target in Hin as (r & Hr & Hri & ->); [|exact Hid].
  simpl; split; [reflexivity|].
  split; [apply clamp_clamped_to|apply clamp_bounds; lra].
Qed.

Lemma height_floor_witness :
  exists r',
    In r' (rects (onMouseMove (mkMouseEvent 100 400)
                    (onMouseDownRectH (mkMouseEvent 100 100) "R1" (-1)
                                      initialState))) /\
    Rect.h r' = 10 /\ Rect.w r' = 720.
Proof.
  eexists; split; [left; reflexivity|].
  destruct (height_floor
              (onMouseDownRectH (mkMouseEvent 100 100) "R1" (-1) initialState)
              (mkMouseEvent 100 400) "R1" 100 100
              (Rect.mk "R1" (W / 2 - 320 / 2.2) (H / 2 - 200 / 3)
                       120 60 (120 * 60) "#2563eb")
              (-1)
              (Rect.mk "R1" (W / 2 - 320 / 2.2) (H / 2 - 200 / 3)
                       (clamp (120 * 60 / Rmax 10 (60 + -1 * (400 - 100)))
                              20 900)
                       (Rmax 10 (60 + -1 * (400 - 100)))
                       (120 * 60) "#2563eb"))
    as (Hh & (_ & _ & Hin & _) & _).
  - reflexivity.
  - reflexivity.
  - simpl; lra.
  - left; reflexivity.
  - reflexivity.
  - split; [exact Hh|].
    etransitivity; [apply Hin; simpl; lra|simpl; lra].
Defined.

Section DerivedDimension.
Variables x a lo hi : R.
Hypothesis Hx : 0 < x.

Lemma derived_within : lo <= a / x <= hi -> x * clamp (a / x) lo hi = a.
Proof.
  intros Hin; rewrite clamp_inside by exact Hin.
  apply derived_product; lra.
Qed.

Lemma derived_clamped_up :
  lo <= hi -> a / x < lo -> a < x * clamp (a / x) lo hi.
Proof.
  intros Hb Hlow.
  assert (Hc : clamp (a / x) lo hi = lo) by case_clamp.
  rewrite Hc.
  assert (Ha : a = x * (a / x)) by (field; lra).
  rewrite Ha at 1; apply Rmult_lt_compat_l; assumption.
Qed.

Lemma derived_clamped_down :
  lo <= hi -> hi < a / x -> x * clamp (a / x) lo hi < a.
Proof.
  intros Hb Hhigh.
  assert (Hc : clamp (a / x) lo hi = hi) by case_clamp.
  rewrite Hc.
  assert (Ha : a = x * (a / x)) by (field; lra).
  rewrite Ha at 1; apply Rmult_lt_compat_l; assumption.
Qed.
End DerivedDimension.

(** X18. In a width session on a well-formed state, the resized rectangle
    obeys the area law whenever the derived height [area / w] lies within
    [10, 600] for the width [w = max(20, snapshot.w + dir * dx)] that is
    written: the floor of 20 on the width does not break the law by
    itself. *)
Theorem width_floor_keeps_area_law (st : State) (e : MouseEvent)
  (i : string) (sx sy : R) (s : Rect.t) (dir : R) (r' : Rect.t) :
  wf st ->
  dragRef st = Some (resizeRectW i sx sy (Some s) dir) ->
  truthy i = true ->
  10 <= Rect.area s / Rmax 20 (Rect.w s + dir * (clientX e - sx)) <= 600 ->
  In r' (rects (onMouseMove e st)) ->
  Rect.id r' = i ->
  area_law r'.
Proof.
  intros [_ Hc] Hd Ht Hin' Hin Hid.
  rewrite (rects_resizeRectW st e i sx sy s dir Ht Hd) in Hin.
  cbv zeta in Hin.
  apply resize_one_target in Hin as (r & Hr & Hri & ->); [|exact Hid].
  assert (Ha : Rect.area r = Rect.area s).
  { apply (Hc _ s r Hd); simpl; auto; congruence. }
  unfold area_law; simpl; rewrite Ha.
  apply derived_within; [|exact Hin'].
  eapply Rlt_le_trans; [|apply Rmax_l]; lra.
Qed.

Lemma width_floor_keeps_area_law_witness :
  exists r',
    In r' (rects (onMouseMove (mkMouseEvent (-50) 100)
                    (onMouseDownRectW (mkMouseEvent 100 100) "R1" 1
                                      initialState))) /\
    Rect.w r' = 20 /\ area_law r'.
Proof.
  eexists; split; [left; reflexivity|].
  split; [simpl; apply Rmax_left; lra|].
  eapply (width_floor_keeps_area_law
            (onMouseDownRectW (mkMouseEvent 100 100) "R1" 1 initialState)
            (mkMouseEvent (-50) 100) "R1" 100 100
            (Rect.mk "R1" (W / 2 - 320 / 2.2) (H / 2 - 200 / 3)
                     120 60 (120 * 60) "#2563eb")
            1).
  - exact (wf_handle (MouseDownRectW (mkMouseEvent 100 100) "R1" 1)
                     initialState wf_initialState).
  - reflexivity.
  - reflexivity.
  - simpl; rewrite Rmax_left by lra; lra.
  - left; reflexivity.
  - reflexivity.
Defined.

(** X19. In a width session on a well-formed state, when the derived
    height [area / w] falls below 10 the rectangle is left with height 10
    and a product [w * h] above its area; when it exceeds 600 the
    rectangle is left with height 600 and a product below its area. *)
Theorem height_clamp_breaks_area_law (st : State) (e : MouseEvent)
  (i : string) (sx sy : R) (s : Rect.t) (dir : R) (r' : Rect.t) :
  wf st ->
  dragRef st = Some (resizeRectW i sx sy (Some s) dir) ->
  truthy i = true ->
  In r' (rects (onMouseMove e st)) ->
  Rect.id r' = i ->
  (Rect.area s / Rmax 20 (Rect.w s + dir * (clientX e - sx)) < 10 ->
   Rect.h r' = 10 /\ Rect.area r' < Rect.w r' * Rect.h r')
  /\
  (600 < Rect.area s / Rmax 20 (Rect.w s + dir * (clientX e - sx)) ->
   Rect.h r' = 600 /\ Rect.w r' * Rect.h r' < Rect.area r').
Proof.
  intros [_ Hc] Hd Ht Hin Hid.
  rewrite (rects_resizeRectW st e i sx sy s dir Ht Hd) in Hin.
  cbv zeta in Hin.
  apply resize_one_target in Hin as (r & Hr & Hri & ->); [|exact Hid].
  assert (Ha : Rect.area r = Rect.area s).
  { apply (Hc _ s r Hd); simpl; auto; congruence. }
  assert (Hpos : 0 < Rmax 20 (Rect.w s + dir * (clientX e - sx)))
    by (eapply Rlt_le_trans; [|apply Rmax_l]; lra).
  simpl; rewrite Ha; split; intros Hout; split.
  - case_clamp.
  - apply derived_clamped_up; [exact Hpos|lra|exact Hout].
  - case_clamp.
  - apply derived_clamped_down; [exact Hpos|lra|exact Hout].
Qed.

Lemma height_clamp_breaks_area_law_witness :
  exists r',
    In r' (rects (onMouseMove (mkMouseEvent 1100 100)
                    (onMouseDownRectW (mkMouseEvent 100 100) "R1" 1
                                      initialState))) /\
    Rect.h r' = 10 /\ Rect.area r' < Rect.w r' * Rect.h r'.
Proof.
  eexists; split; [left; reflexivity|].
  eapply (proj1 (height_clamp_breaks_area_law
                   (onMouseDownRectW (mkMouseEvent 100 100) "R1" 1
                                     initialState)
                   (mkMouseEvent 1100 100) "R1" 100 100
                   (Rect.mk "R1" (W / 2 - 320 / 2.2) (H / 2 - 200 / 3)
                            120 60 (120 * 60) "#2563eb")
                   1 _
                   (wf_handle (MouseDownRectW (mkMouseEvent 100 100) "R1" 1)
                              initialState wf_initialState)
                   eq_refl eq_refl (or_introl eq_refl) eq_refl)).
  simpl; rewrite Rmax_right by lra; lra.
Defined.

(** ** Repeated pointer moves outside move sessions *)

Lemma resize_one_twice i x y x' y' r :
  resize_one i x y (resize_one i x' y' r) = resize_one i x y r.
Proof.
  unfold resize_one.
  destruct (String.eqb (Rect.id r) i) eqn:Heq; simpl; rewrite Heq; reflexivity.
Qed.

Lemma move_session_onMouseMove e st :
  move_session (onMouseMove e st) = move_session st.
Proof. unfold move_session; rewrite dragRef_onMouseMove; reflexivity. Qed.

Lemma onMouseMove_overrides e e' st :
  move_session st = false ->
  onMouseMove e (onMouseMove e' st) = onMouseMove e st.
Proof.
  unfold move_session; intros Hm.
  destruct st as [rs o [d|]]; simpl in Hm; [|reflexivity].
  destruct d as [i ? ? s|i ? ? [s|] ?|i ? ? [s|] ?|? ? ? ?|? ? ? ?];
    try discriminate; unfold onMouseMove; simpl; try reflexivity.
  - destruct (truthy i) eqn:Ht; simpl; rewrite ?Ht; [|reflexivity].
    unfold setRects; simpl; f_equal.
    rewrite map_map; apply map_ext; intros r; apply resize_one_twice.
  - destruct (truthy i) eqn:Ht; simpl; rewrite ?Ht; [|reflexivity].
    unfold setRects; simpl; f_equal.
    rewrite map_map; apply map_ext; intros r; apply resize_one_twice.
Qed.

(** X20. In every session but a rectangle move, and outside sessions, the
    state after a pointer move depends on the pointer position alone, not
    on the moves that came before it in the session. *)
Theorem pointer_path_is_forgotten (st : State) (es : list MouseEvent)
  (e : MouseEvent) :
  move_session st = false ->
  onMouseMove e (moves es st) = onMouseMove e st.
Proof.
  unfold moves; revert st; induction es as [|e' es IH]; simpl; intros st Hm.
  - reflexivity.
  - rewrite IH by (rewrite move_session_onMouseMove; exact Hm).
    apply onMouseMove_overrides; exact Hm.
Qed.

Lemma pointer_path_is_forgotten_witness :
  onMouseMove (mkMouseEvent 130 100)
    (moves [mkMouseEvent 150 100; mkMouseEvent 90 300]
       (onMouseDownRectH (mkMouseEvent 100 100) "R3" 1 initialState))
  = onMouseMove (mkMouseEvent 130 100)
      (onMouseDownRectH (mkMouseEvent 100 100) "R3" 1 initialState).
Proof. apply pointer_path_is_forgotten; reflexivity. Defined.

(** ** The option buttons *)

(** X23. "Normalize sizes" keeps the ratio of width to height of every
    rectangle of positive dimensions. *)
Theorem normalize_keeps_ratio (st : State) (k : nat) (r : Rect.t) :
  nth_error (rects st) k = Some r ->
  positive r ->
  exists r',
    nth_error (rects (normalize st)) k = Some r' /\
    Rect.w r' / Rect.h r' = Rect.w r / Rect.h r.
Proof.
  intros Hk Hr; exists (normalize_one r); split.
  - simpl; rewrite nth_error_map, Hk; reflexivity.
  - pose proof (normalize_width_pos r Hr) as Hw.
    destruct Hr as (Ha & Hw0 & Hh0); simpl.
    set (x := Rect.area r * (Rect.w r / Rect.h r)) in *.
    assert (Hx : sqrt x * sqrt x = x).
    { apply sqrt_sqrt; left; unfold x.
      apply Rmult_lt_0_compat; [|apply Rdiv_lt_0_compat]; assumption. }
    assert (Hq : sqrt x / (Rect.area r / sqrt x)
                 = sqrt x * sqrt x / Rect.area r) by (field; lra).
    rewrite Hq, Hx; unfold x; field; lra.
Qed.

Lemma normalize_keeps_ratio_witness :
  exists r',
    nth_error
      (rects (normalize
                (mkState [Rect.mk "R1" 300 200 20 10 7200 "#2563eb"]
                         initialOval None))) 0
    = Some r' /\
    Rect.w r' / Rect.h r' = 20 / 10.
Proof.
  apply (normalize_keeps_ratio
           (mkState [Rect.mk "R1" 300 200 20 10 7200 "#2563eb"]
                    initialOval None)
           0 (Rect.mk "R1" 300 200 20 10 7200 "#2563eb") eq_refl).
  repeat split; simpl; lra.
Defined.

(** X24. "Randomize aspect" gives every rectangle of positive area the
    ratio of width to height [aspect = clamp(random * 3 + 0.5, 0.5, 3.5)];
    for a draw in [0, 1), as [Math.random()] returns, the ratio is
    [random * 3 + 0.5] and lies in [0.5, 3.5). *)
Theorem randomize_sets_ratio (st : State) (rnd : nat -> R) (k : nat)
  (r : Rect.t) :
  nth_error (rects st) k = Some r ->
  0 < Rect.area r ->
  exists r',
    nth_error (rects (randomizeAspect rnd st)) k = Some r' /\
    Rect.w r' / Rect.h r' = clamp (rnd k * 3 + 0.5) 0.5 3.5 /\
    (0 <= rnd k < 1 ->
     Rect.w r' / Rect.h r' = rnd k * 3 + 0.5 /\
     0.5 <= Rect.w r' / Rect.h r' < 3.5).
Proof.
  intros Hk Ha; exists (randomize_one (rnd k) r).
  assert (Hratio : Rect.w (randomize_one (rnd k) r)
                   / Rect.h (randomize_one (rnd k) r)
                   = clamp (rnd k * 3 + 0.5) 0.5 3.5).
  { pose proof (randomize_height_pos (rnd k) r Ha) as Hh.
    pose proof (aspect_bounds (rnd k)) as Hb; simpl.
    set (asp := clamp (rnd k * 3 + 0.5) 0.5 3.5) in *.
    assert (Hx : sqrt (Rect.area r / asp) * sqrt (Rect.area r / asp)
                 = Rect.area r / asp).
    { apply sqrt_sqrt; left; apply Rdiv_lt_0_compat; lra. }
    set (y := sqrt (Rect.area r / asp)) in *.
    assert (Hq : Rect.area r / y / y = Rect.area r / (y * y))
      by (field; lra).
    rewrite Hq, Hx; field; lra. }
  split; [|split].
  - simpl; unfold mapi; rewrite nth_error_mapi_from, Hk; reflexivity.
  - exact Hratio.
  - intros Hrnd; rewrite Hratio.
    rewrite clamp_inside by lra; split; lra.
Qed.

Lemma randomize_sets_ratio_witness :
  exists r',
    nth_error (rects (randomizeAspect (fun _ => 0.5) initialState)) 0
    = Some r' /\
    Rect.w r' / Rect.h r' = clamp (0.5 * 3 + 0.5) 0.5 3.5.
Proof.
  destruct (randomize_sets_ratio initialState (fun _ => 0.5) 0
              (Rect.mk "R1" (W / 2 - 320 / 2.2) (H / 2 - 200 / 3)
                       120 60 (120 * 60) "#2563eb")
              eq_refl ltac:(simpl; lra))
    as (r' & Hk & Hr & _).
  exists r'; split; assumption.
Defined.

(** ** Along every sequence of events *)

Lemma same_identity_trans r1 r2 r3 :
  same_identity r1 r2 -> same_identity r2 r3 -> same_identity r1 r3.
Proof. unfold same_identity; intros (?&?&?) (?&?&?); repeat split; congruence. Qed.

Lemma Forall2_same_identity_trans l1 l2 l3 :
  Forall2 same_identity l1 l2 -> Forall2 same_identity l2 l3 ->
  Forall2 same_identity l1 l3.
Proof.
  intros H12; revert l3; induction H12 as [|a b l1 l2 Hab _ IH];
    intros l3 H23; inversion H23; subst; constructor.
  - eapply same_identity_trans; eauto.
  - apply IH; assumption.
Qed.

(** X25. No sequence of events adds, removes, reorders or renames a
    rectangle, or changes its area or colour. *)
Theorem rect_identity_is_stable (evs : list Event) (st : State) :
  Forall2 same_identity (rects st) (rects (run evs st)) /\
  List.length (rects (run evs st)) = List.length (rects st).
Proof.
  assert (Hall : forall st0,
             Forall2 same_identity (rects st0) (rects (run evs st0))).
  { unfold run; induction evs as [|ev evs IH]; simpl; intros st0.
    - apply Forall2_same_identity_refl.
    - eapply Forall2_same_identity_trans;
        [apply handle_same_identity|apply IH]. }
  split; [apply Hall|].
  symmetry; eapply Forall2_length; apply Hall.
Qed.

Lemma oval_center_handle ev st :
  Oval.cx (oval (handle ev st)) = Oval.cx (oval st) /\
  Oval.cy (oval (handle ev st)) = Oval.cy (oval st).
Proof.
  destruct (resizes_oval ev st) eqn:Hr.
  - destruct ev; try discriminate; simpl.
    unfold resizes_oval in Hr; unfold onMouseMove.
    destruct (dragRef st) as [[| | |? ? o dir|? ? o dir]|]; try discriminate;
      simpl; auto.
  - rewrite oval_unchanged by exact Hr; auto.
Qed.

(** X26. No sequence of events moves the center of the oval. *)
Theorem oval_center_is_fixed (evs : list Event) (st : State) :
  Oval.cx (oval (run evs st)) = Oval.cx (oval st) /\
  Oval.cy (oval (run evs st)) = Oval.cy (oval st).
Proof.
  unfold run; revert st; induction evs as [|ev evs IH]; simpl; intros st.
  - auto.
  - destruct (IH (handle ev st)) as [Hx Hy].
    destruct (oval_center_handle ev st) as [Hx' Hy'].
    split; congruence.
Qed.

(** X27. Rectangles of positive area, width and height keep positive area,
    width and height along every sequence of events, so that no handler
    divides by zero. *)
Theorem dimensions_stay_positive (evs : list Event) (st : State) :
  Forall positive (rects st) -> Forall positive (rects (run evs st)).
Proof. apply positive_run. Qed.

Lemma dimensions_stay_positive_witness :
  Forall positive
    (rects (run [MouseDownRectW (mkMouseEvent 100 100) "R1" (-1);
                 MouseMove (mkMouseEvent 900 100);
                 MouseUp;
                 ClickNormalize;
                 ClickRandomize (fun _ => 0.25)]
                initialState)).
Proof. apply dimensions_stay_positive; exact positive_initialState. Defined.

(** X28. From an idle state with distinct ids, every sequence of events
    leads to a state with distinct ids in which the snapshot of the active
    session, if any, carries the area of the rectangle it addresses, and
    in which a session without snapshot addresses no rectangle. *)
Theorem sessions_stay_consistent (evs : list Event) (st : State) :
  unique_ids st ->
  dragRef st = None ->
  wf (run evs st) /\ missing_snapshot_has_no_target (run evs st).
Proof.
  intros Hu Hd; split.
  - apply wf_run; split; [exact Hu|].
    intros d s r Hd'; congruence.
  - apply resize_without_snapshot_has_no_target; exact Hd.
Qed.

Lemma sessions_stay_consistent_witness :
  wf (run [MouseDownRectH (mkMouseEvent 100 100) "R4" 1;
           MouseMove (mkMouseEvent 100 160);
           MouseDownRectW (mkMouseEvent 100 160) "R9" 1;
           MouseMove (mkMouseEvent 10 160)]
          initialState).
Proof.
  apply (sessions_stay_consistent _ initialState
           (proj1 wf_initialState) eq_refl).
Defined.

(** ** Handles under the pointer *)

(** X29. A pressed oval handle follows the pointer along its axis: as
    long as the radius asked for stays within its bounds, the right and
    left handles are displaced by the pointer's horizontal displacement and
    the top and bottom handles by its vertical displacement. *)
Theorem oval_handle_follows_pointer (st : State) (p q : MouseEvent) :
  let o := oval st in
  let dx := clientX q - clientX p in
  let dy := clientY q - clientY p in
  (forall hd, nth_error (ovalHandles o) 0 = Some hd ->
     60 <= Oval.rx o + dx <= W / 2 - 40 ->
     exists hd',
       nth_error (ovalHandles (oval (press_and_move hd p q st))) 0 = Some hd'
       /\ hx hd' = hx hd + dx /\ hy hd' = hy hd)
  /\
  (forall hd, nth_error (ovalHandles o) 1 = Some hd ->
     60 <= Oval.rx o - dx <= W / 2 - 40 ->
     exists hd',
       nth_error (ovalHandles (oval (press_and_move hd p q st))) 1 = Some hd'
       /\ hx hd' = hx hd + dx /\ hy hd' = hy hd)
  /\
  (forall hd, nth_error (ovalHandles o) 2 = Some hd ->
     60 <= Oval.ry o - dy <= H / 2 - 40 ->
     exists hd',
       nth_error (ovalHandles (oval (press_and_move hd p q st))) 2 = Some hd'
       /\ hx hd' = hx hd /\ hy hd' = hy hd + dy)
  /\
  (forall hd, nth_error (ovalHandles o) 3 = Some hd ->
     60 <= Oval.ry o + dy <= H / 2 - 40 ->
     exists hd',
       nth_error (ovalHandles (oval (press_and_move hd p q st))) 3 = Some hd'
       /\ hx hd' = hx hd /\ hy hd' = hy hd + dy).
Proof.
  cbv zeta; split; [|split; [|split]]; intros hd Hk Hb;
    simpl in Hk; injection Hk as <-;
    unfold press_and_move; simpl;
    eexists; (split; [reflexivity|]); simpl;
    rewrite clamp_inside by lra; split; lra.
Qed.

Lemma oval_handle_follows_pointer_witness :
  exists hd',
    nth_error
      (ovalHandles
         (oval (press_and_move
                  (mkHandle (Oval.cx initialOval - Oval.rx initialOval)
                            (Oval.cy initialOval)
                            (fun e => MouseDownOvalRX e (-1)))
                  (mkMouseEvent 160 280) (mkMouseEvent 100 300)
                  initialState))) 1
    = Some hd' /\
    hx hd' = Oval.cx initialOval - Oval.rx initialOval + (100 - 160) /\
    hy hd' = Oval.cy initialOval.
Proof.
  apply (proj1 (proj2 (oval_handle_follows_pointer initialState
                         (mkMouseEvent 160 280) (mkMouseEvent 100 300)))
               _ eq_refl).
  simpl; unfold W; lra.
Defined.

Section GrabbedRectangle.
Variables (st : State) (p q : MouseEvent) (r0 : Rect.t) (dir : R).
Hypothesis Hfound : find_rect (Rect.id r0) (rects st) = Some r0.
Hypothesis Htruthy : truthy (Rect.id r0) = true.

Lemma find_after_width_drag :
  find_rect (Rect.id r0)
    (rects (onMouseMove q (onMouseDownRectW p (Rect.id r0) dir st)))
  = let w := Rmax 20 (Rect.w r0 + dir * (clientX q - clientX p)) in
    Some (with_size r0 w (clamp (Rect.area r0 / w) 10 600)).
Proof.
  rewrite (rects_resizeRectW _ q (Rect.id r0) (clientX p) (clientY p) r0 dir
             Htruthy) by (simpl; rewrite Hfound; reflexivity).
  cbv zeta; rewrite find_rect_map by apply resize_one_id.
  simpl rects; rewrite Hfound; simpl; unfold resize_one.
  rewrite String.eqb_refl; reflexivity.
Qed.

Lemma find_after_height_drag :
  find_rect (Rect.id r0)
    (rects (onMouseMove q (onMouseDownRectH p (Rect.id r0) dir st)))
  = let h := Rmax 10 (Rect.h r0 + dir * (clientY q - clientY p)) in
    Some (with_size r0 (clamp (Rect.area r0 / h) 20 900) h).
Proof.
  rewrite (rects_resizeRectH _ q (Rect.id r0) (clientX p) (clientY p) r0 dir
             Htruthy) by (simpl; rewrite Hfound; reflexivity).
  cbv zeta; rewrite find_rect_map by apply resize_one_id.
  simpl rects; rewrite Hfound; simpl; unfold resize_one.
  rewrite String.eqb_refl; reflexivity.
Qed.
End GrabbedRectangle.

(** X30. A pressed width or height handle of a rectangle moves by half of
    the pointer's displacement along its axis, as long as the floor of the
    dragged dimension is not reached: the center stays where it is, so the
    opposite edge moves the other way. *)
Theorem rect_handle_moves_half (st : State) (p q : MouseEvent)
  (r0 : Rect.t) :
  find_rect (Rect.id r0) (rects st) = Some r0 ->
  truthy (Rect.id r0) = true ->
  let dx := clientX q - clientX p in
  let dy := clientY q - clientY p in
  let after hd := find_rect (Rect.id r0) (rects (press_and_move hd p q st)) in
  (forall hd, nth_error (rectHandles r0) 1 = Some hd ->
     20 <= Rect.w r0 + dx ->
     exists r' hd',
       after hd = Some r' /\ nth_error (rectHandles r') 1 = Some hd' /\
       hx hd' = hx hd + dx / 2 /\ hy hd' = hy hd)
  /\
  (forall hd, nth_error (rectHandles r0) 2 = Some hd ->
     20 <= Rect.w r0 - dx ->
     exists r' hd',
       after hd = Some r' /\ nth_error (rectHandles r') 2 = Some hd' /\
       hx hd' = hx hd + dx / 2 /\ hy hd' = hy hd)
  /\
  (forall hd, nth_error (rectHandles r0) 3 = Some hd ->
     10 <= Rect.h r0 - dy ->
     exists r' hd',
       after hd = Some r' /\ nth_error (rectHandles r') 3 = Some hd' /\
       hx hd' = hx hd /\ hy hd' = hy hd + dy / 2)
  /\
  (forall hd, nth_error (rectHandles r0) 4 = Some hd ->
     10 <= Rect.h r0 + dy ->
     exists r' hd',
       after hd = Some r' /\ nth_error (rectHandles r') 4 = Some hd' /\
       hx hd' = hx hd /\ hy hd' = hy hd + dy / 2).
Proof.
  intros Hf Ht; cbv zeta; split; [|split; [|split]]; intros hd Hk Hb;
    simpl in Hk; injection Hk as <-; unfold press_and_move; simpl handle.
  - rewrite (find_after_width_drag st p q r0 1 Hf Ht); cbv zeta.
    eexists; eexists; split; [reflexivity|split; [reflexivity|]]; simpl.
    rewrite Rmax_right by lra; split; lra.
  - rewrite (find_after_width_drag st p q r0 (-1) Hf Ht); cbv zeta.
    eexists; eexists; split; [reflexivity|split; [reflexivity|]]; simpl.
    rewrite Rmax_right by lra; split; lra.
  - rewrite (find_after_height_drag st p q r0 (-1) Hf Ht); cbv zeta.
    eexists; eexists; split; [reflexivity|split; [reflexivity|]]; simpl.
    rewrite Rmax_right by lra; split; lra.
  - rewrite (find_after_height_drag st p q r0 1 Hf Ht); cbv zeta.
    eexists; eexists; split; [reflexivity|split; [reflexivity|]]; simpl.
    rewrite Rmax_right by lra; split; lra.
Qed.

Lemma rect_handle_moves_half_witness :
  exists r' hd',
    find_rect "R1"
      (rects (press_and_move
                (mkHandle (W / 2 - 320 / 2.2 - 120 / 2 + 120) (H / 2 - 200 / 3)
                          (fun e => MouseDownRectW e "R1" 1))
                (mkMouseEvent 100 100) (mkMouseEvent 150 100) initialState))
    = Some r' /\
    nth_error (rectHandles r') 1 = Some hd' /\
    hx hd' = W / 2 - 320 / 2.2 - 120 / 2 + 120 + (150 - 100) / 2 /\
    hy hd' = H / 2 - 200 / 3.
Proof.
  apply (proj1 (rect_handle_moves_half initialState
                  (mkMouseEvent 100 100) (mkMouseEvent 150 100)
                  (Rect.mk "R1" (W / 2 - 320 / 2.2) (H / 2 - 200 / 3)
                           120 60 (120 * 60) "#2563eb")
                  eq_refl eq_refl)
               _ eq_refl).
  simpl; lra.
Defined.

(** ** Pressing a handle without dragging *)

(** X7. Pressing a width handle and moving the pointer with no
    displacement keeps the width of the rectangle, when it is at least 20,
    and writes the height [area / w], when that lies in [10, 600], whatever
    the height was: the rectangle obeys the area law afterwards and its
    center is kept.  Likewise a height handle keeps a height of at least 10
    and writes the width [area / h], when that lies in [20, 900]. *)
Theorem press_without_drag_rederives (st : State) (e : MouseEvent)
  (r0 : Rect.t) (dir : R) :
  find_rect (Rect.id r0) (rects st) = Some r0 ->
  truthy (Rect.id r0) = true ->
  (20 <= Rect.w r0 ->
   10 <= Rect.area r0 / Rect.w r0 <= 600 ->
   exists r',
     find_rect (Rect.id r0)
       (rects (onMouseMove e (onMouseDownRectW e (Rect.id r0) dir st)))
     = Some r' /\
     Rect.w r' = Rect.w r0 /\
     Rect.h r' = Rect.area r0 / Rect.w r0 /\
     area_law r' /\
     Rect.cx r' = Rect.cx r0 /\ Rect.cy r' = Rect.cy r0)
  /\
  (10 <= Rect.h r0 ->
   20 <= Rect.area r0 / Rect.h r0 <= 900 ->
   exists r',
     find_rect (Rect.id r0)
       (rects (onMouseMove e (onMouseDownRectH e (Rect.id r0) dir st)))
     = Some r' /\
     Rect.h r' = Rect.h r0 /\
     Rect.w r' = Rect.area r0 / Rect.h r0 /\
     area_law r' /\
     Rect.cx r' = Rect.cx r0 /\ Rect.cy r' = Rect.cy r0).
Proof.
  intros Hf Ht; split; intros Hfloor Hin.
  - rewrite (find_after_width_drag st e e r0 dir Hf Ht); cbv zeta.
    replace (Rect.w r0 + dir * (clientX e - clientX e)) with (Rect.w r0)
      by ring.
    rewrite Rmax_right by exact Hfloor.
    rewrite clamp_inside by exact Hin.
    eexists; split; [reflexivity|]; unfold area_law; simpl.
    repeat split; apply derived_product; lra.
  - rewrite (find_after_height_drag st e e r0 dir Hf Ht); cbv zeta.
    replace (Rect.h r0 + dir * (clientY e - clientY e)) with (Rect.h r0)
      by ring.
    rewrite Rmax_right by exact Hfloor.
    rewrite clamp_inside by exact Hin.
    eexists; split; [reflexivity|]; unfold area_law; simpl.
    repeat split; rewrite Rmult_comm; apply derived_product; lra.
Qed.

Lemma press_without_drag_rederives_witness :
  exists r',
    find_rect "R1"
      (rects (onMouseMove (mkMouseEvent 100 100)
                (onMouseDownRectW (mkMouseEvent 100 100) "R1" 1
                   (mkState [Rect.mk "R1" 300 200 20 10 7200 "#2563eb"]
                            initialOval None))))
    = Some r' /\
    Rect.w r' = 20 /\ Rect.h r' = 7200 / 20 /\ area_law r'.
Proof.
  destruct (proj1 (press_without_drag_rederives
                     (mkState [Rect.mk "R1" 300 200 20 10 7200 "#2563eb"]
                              initialOval None)
                     (mkMouseEvent 100 100)
                     (Rect.mk "R1" 300 200 20 10 7200 "#2563eb") 1
                     eq_refl eq_refl)
                  ltac:(simpl; lra) ltac:(simpl; lra))
    as (r' & Hf & Hw & Hh & Hl & _).
  exists r'; repeat split; assumption.
Defined.
